(** * The Kraken futures adapter of safe-cex

    A shallow embedding of the order-book synchronizer and subscription
    handling of [kraken.ws-public.ts], the heartbeat of the private
    websocket and the request signer of [kraken.api.ts], with the
    properties their specification states.

    Conventions of the model.
    - Prices and quantities are JavaScript numbers in the source; here they
      are exact integers (ticks and lots), so [===] on them is [=] and sums
      do not round.  [NaN] and rounding are outside the model.
    - A JavaScript object used as a dictionary is a [gmap]; a dictionary
      whose key order is observed ([topics]) is an association list.
    - Handlers mutate [this]; here they are state transformers.  A handler
      that can raise a [TypeError] returns [Throw s], where [s] is the state
      reached when the exception leaves the handler.
    - Listener closures are identified by a number; invoking one appends to
      the log [invoked]; frames given to [ws.send] are appended to [sent]. *)

From Stdlib Require Import ZArith Lia Ascii DecimalString DecimalPos DecimalZ.
From stdpp Require Import gmap strings list fin_maps sorting.

(** ** Handlers that may raise *)

Module Js.

(** Result of a handler on a state of type [St]: it returns a value, or
    an exception leaves it; either way it leaves a state behind.

    [Escape s] is the third outcome.  A dictionary of the session is a
    plain object, so a key that names a property of [Object.prototype]
    ([constructor], [__proto__], [toString], ...) and is not a key of the
    dictionary finds the built-in object of that name.  The handler then
    goes on with that object in place of a callback, a book or a message
    handler, and reads, writes or calls it.  The model does not follow the
    handler there: [s] is the state at the lookup, and nothing is said of
    what the handler does after it. *)
Inductive Result (St A : Type) :=
| Return (a : A) (s : St)
| Throw (s : St)
| Escape (s : St).
Arguments Return {St A} a s.
Arguments Throw {St A} s.
Arguments Escape {St A} s.

Definition bind {St A B} (m : St → Result St A) (k : A → St → Result St B)
  : St → Result St B :=
  λ s, match m s with
       | Return a s' => k a s'
       | Throw s' => Throw s'
       | Escape s' => Escape s'
       end.

(** The state a handler leaves behind, however it ends. *)
Definition final {St A} (r : Result St A) : St :=
  match r with Return _ s => s | Throw s => s | Escape s => s end.

End Js.

(** ** utils/orderbook *)

Module Orderbook.

(** One price level of [OrderBook] in [types.ts]. *)
Record Order := { price : Z; amount : Z; total : Z }.

Record OrderBook := { bids : list Order; asks : list Order }.

Definition set_amount (q : Z) (o : Order) : Order :=
  {| price := price o; amount := q; total := total o |}.

Definition set_total (t : Z) (o : Order) : Order :=
  {| price := price o; amount := amount o; total := t |}.

Definition set_bids (l : list Order) (ob : OrderBook) : OrderBook :=
  {| bids := l; asks := asks ob |}.

Definition set_asks (l : list Order) (ob : OrderBook) : OrderBook :=
  {| bids := bids ob; asks := l |}.

(** Insertion of one level in front of the first level that does not
    come before it; levels of equal price keep their order. *)
Fixpoint insert_level (before : Z → Z → bool) (x : Order) (l : list Order)
  : list Order :=
  match l with
  | [] => [x]
  | y :: r =>
      if before (price x) (price y) then x :: y :: r
      else y :: insert_level before x r
  end.

Definition sort_levels (before : Z → Z → bool) (l : list Order) : list Order :=
  foldr (insert_level before) [] l.

(** Modelled from the spec: [sortOrderBook] of [utils/orderbook] is not
    among the sources.  Section 4.5: the sides are re-sorted, bids
    descending by price, asks ascending by price.  The sort is stable, as
    [Array.prototype.sort] is. *)
Definition sortOrderBook (ob : OrderBook) : OrderBook :=
  {| bids := sort_levels Z.geb (bids ob);
     asks := sort_levels Z.leb (asks ob) |}.

(** Running sum from the best price outward, [acc] being the total of
    the level before. *)
Fixpoint running_total (acc : Z) (l : list Order) : list Order :=
  match l with
  | [] => []
  | o :: r =>
      let t := (acc + amount o)%Z in
      set_total t o :: running_total t r
  end.

(** Modelled from the spec: [calcOrderBookTotal] of [utils/orderbook] is
    not among the sources.  Section 3: the cumulative total is a running
    sum of [amount] from the best price outward, recomputed for the whole
    side. *)
Definition calcOrderBookTotal (ob : OrderBook) : OrderBook :=
  {| bids := running_total 0 (bids ob);
     asks := running_total 0 (asks ob) |}.

(** Sum of the amounts of a list of levels. *)
Definition sum_amounts (l : list Order) : Z :=
  foldr (λ o acc, (amount o + acc)%Z) 0%Z l.

#[global] Instance Order_eq_dec : EqDecision Order.
Proof. solve_decision. Defined.

#[global] Instance OrderBook_eq_dec : EqDecision OrderBook.
Proof. solve_decision. Defined.

End Orderbook.

(** ** kraken.ws-public.ts *)

Module Pub.
Import Js Orderbook.

(** An element of [this.topics[feed]]. *)
Record Topic := { feed : string; product_id : string }.

(** The fields of a market of [store.markets] that the websocket reads. *)
Record Market := { market_id : string; market_symbol : string }.

(** A ticker of [store.tickers]: its symbol and its numeric properties
    by name. *)
Record Ticker := { ticker_symbol : string; ticker_fields : gmap string Z }.

Record Store := {
  loaded_markets : bool;          (* store.loaded.markets *)
  markets : list Market;
  tickers : list Ticker
}.

(** An element of [bids] or [asks] of a [book_snapshot] message. *)
Record Level := { level_price : Z; level_qty : Z }.

(** A decoded message ([Data = Record<string, any>]), as far as the
    handlers read it.  Scalars are taken at the types the handler
    declares for them.  [data_feed] is [None] when the message has no
    [feed]; [data_bids] and [data_asks] are [None] when the property is
    missing, so that [.map] on it raises a [TypeError].  [data_ticker]
    holds the numeric ticker properties present in the message. *)
Record Data := {
  data_feed : option string;
  data_product_id : string;
  data_bids : option (list Level);
  data_asks : option (list Level);
  data_price : Z;
  data_qty : Z;
  data_side : string;
  data_ticker : gmap string Z
}.

(** A listener closure, by identity. *)
Definition Callback := nat.

(** [ws.readyState] of the current socket, as far as it is observed. *)
Inductive ReadyState := CONNECTING | OPEN.

(** A frame given to [ws.send] (the argument of [JSON.stringify]). *)
Record Command := {
  event : string;
  cmd_feed : string;
  product_ids : list string
}.

(** A pending [setTimeout(() => this.listenOrderBook(symbol, callback), 100)]. *)
Record Timer := {
  timer_id : nat;
  timer_symbol : string;
  timer_callback : Callback
}.

Record State := {
  isDisposed : bool;
  ws : option ReadyState;                    (* None: this.ws is undefined *)
  topics : list (string * list Topic);       (* keys in insertion order *)
  orderBookCallbacks : gmap string Callback; (* the keys of the object *)
  orderBooks : gmap string OrderBook;        (* the keys of the object *)
  store : Store;
  timers : list Timer;                       (* pending timers *)
  next_timer : nat;                          (* timer ids are never reused *)
  sent : list Command;                       (* oldest first *)
  invoked : list (Callback * OrderBook);     (* oldest first *)
  sockets : nat                              (* sockets created so far *)
}.

Definition set_isDisposed v '(Build_State _ b c d e f g h i j k) :=
  Build_State v b c d e f g h i j k.
Definition set_ws v '(Build_State a _ c d e f g h i j k) :=
  Build_State a v c d e f g h i j k.
Definition set_topics v '(Build_State a b _ d e f g h i j k) :=
  Build_State a b v d e f g h i j k.
Definition set_orderBookCallbacks v '(Build_State a b c _ e f g h i j k) :=
  Build_State a b c v e f g h i j k.
Definition set_orderBooks v '(Build_State a b c d _ f g h i j k) :=
  Build_State a b c d v f g h i j k.
Definition set_store v '(Build_State a b c d e _ g h i j k) :=
  Build_State a b c d e v g h i j k.
Definition set_timers v '(Build_State a b c d e f _ h i j k) :=
  Build_State a b c d e f v h i j k.
Definition set_next_timer v '(Build_State a b c d e f g _ i j k) :=
  Build_State a b c d e f g v i j k.
Definition set_sent v '(Build_State a b c d e f g h _ j k) :=
  Build_State a b c d e f g h v j k.
Definition set_invoked v '(Build_State a b c d e f g h i _ k) :=
  Build_State a b c d e f g h i v k.
Definition set_sockets v '(Build_State a b c d e f g h i j _) :=
  Build_State a b c d e f g h i j v.

(** The state of a freshly constructed [KrakenPublicWebsocket]. *)
Definition initial (st : Store) : State :=
  {| isDisposed := false; ws := None; topics := [];
     orderBookCallbacks := ∅; orderBooks := ∅; store := st;
     timers := []; next_timer := 0; sent := []; invoked := [];
     sockets := 0 |}.

Definition M (A : Type) := State → Result State A.

(** The names of the properties of [Object.prototype], which every plain
    object inherits. *)
Definition object_prototype_names : list string :=
  [ "constructor"; "__defineGetter__"; "__defineSetter__"; "hasOwnProperty";
    "__lookupGetter__"; "__lookupSetter__"; "isPrototypeOf";
    "propertyIsEnumerable"; "toString"; "valueOf"; "__proto__";
    "toLocaleString" ].

(** [dict[key]] is an inherited property when [key] is not a key of
    [dict]. *)
Definition inherited (key : string) : bool :=
  bool_decide (key ∈ object_prototype_names).

(** The properties that lines 123 and 131 write onto the object that
    line 114 finds.  Under the product id [__proto__] that object is
    [Object.prototype], and every plain object inherits them from then
    on. *)
Definition written_names : list string := ["bids"; "asks"].

(** [this.topics[key]]. *)
Fixpoint topics_get (key : string) (t : list (string * list Topic))
  : option (list Topic) :=
  match t with
  | [] => None
  | (k, v) :: r => if String.eqb k key then Some v else topics_get key r
  end.

(** [this.topics[key] = v]; an existing key keeps its position. *)
Fixpoint topics_set (key : string) (v : list Topic)
    (t : list (string * list Topic)) : list (string * list Topic) :=
  match t with
  | [] => [(key, v)]
  | (k, w) :: r =>
      if String.eqb k key then (k, v) :: r else (k, w) :: topics_set key v r
  end.

(** [[...new Set(l)]]: the distinct elements in order of first occurrence. *)
Fixpoint uniq (l : list string) : list string :=
  match l with
  | [] => []
  | x :: r => x :: filter (λ y, y ≠ x) (uniq r)
  end.

(** Modelled from the spec: [isConnected] of [BaseWebSocket] ([base.ws])
    is not among the sources.  Section 4.4 sends wire commands only when
    the session is ready, that is when the socket is open. *)
Definition isConnected (s : State) : bool :=
  match ws s with Some OPEN => true | _ => false end.

(** [this.ws?.send?.(JSON.stringify(payload))]. *)
Definition send (payload : Command) (s : State) : State :=
  match ws s with
  | Some _ => set_sent (sent s ++ [payload]) s
  | None => s
  end.

Definition connectAndSubscribe (s : State) : State :=
  if isDisposed s then s
  else
    let s := set_sockets (S (sockets s)) (set_ws (Some CONNECTING) s) in
    set_topics
      [ ("ticker",
         (λ m, {| feed := "ticker"; product_id := market_id m |})
           <$> markets (store s));
        ("book", []) ] s.

Definition subscribe (s : State) : State :=
  let topics := concat (snd <$> topics s) in
  let feeds := uniq (feed <$> topics) in
  foldl
    (λ s f,
       let product_ids :=
         product_id <$> filter (λ t, feed t = f) topics in
       if bool_decide (0 < length product_ids) then
         send {| event := "subscribe"; cmd_feed := f;
                 product_ids := product_ids |} s
       else s)
    s feeds.

Definition onOpen (s : State) : State :=
  if isDisposed s then s else subscribe s.

(** The pairs of a message property and the ticker property it updates. *)
Definition ticker_keys : list (string * string) :=
  [ ("bid", "bid"); ("ask", "ask"); ("last", "last"); ("markPrice", "mark");
    ("index", "index"); ("change", "percentage");
    ("openInterest", "openInterest"); ("funding_rate", "fundingRate");
    ("volume", "volume"); ("volumeQuote", "quoteVolume") ].

Definition ticker_update (data : Data) : gmap string Z :=
  foldl
    (λ u '(from, to),
       match data_ticker data !! from with
       | Some v => <[to := v]> u
       | None => u
       end)
    ∅ ticker_keys.

(** Modelled from the spec: [store.updateTicker] belongs to the store,
    which is not among the sources.  Section 6: the store is written via
    [update(partial)]; the properties of the update replace those of the
    ticker. *)
Definition updateTicker (sym : string) (update : gmap string Z)
    (st : Store) : Store :=
  {| loaded_markets := loaded_markets st;
     markets := markets st;
     tickers :=
       match list_find (λ t, ticker_symbol t = sym) (tickers st) with
       | Some (i, t) =>
           <[i := {| ticker_symbol := ticker_symbol t;
                     ticker_fields := update ∪ ticker_fields t |}]>
             (tickers st)
       | None => tickers st
       end |}.

Definition handleTickersEvent (data : Data) (s : State) : State :=
  match list_find (λ m, market_id m = data_product_id data)
          (markets (store s)) with
  | Some (_, market) =>
      let symbol := market_symbol market in
      if bool_decide (symbol = "") then s
      else
        match list_find (λ t, ticker_symbol t = symbol)
                (tickers (store s)) with
        | Some _ =>
            set_store (updateTicker symbol (ticker_update data) (store s)) s
        | None => s
        end
  | None => s
  end.

Definition level_to_order (l : Level) : Order :=
  {| price := level_price l; amount := level_qty l; total := 0 |}.

(** [this.orderBooks[productId]] is one object that the handler mutates
    in place: every assignment to it is an update of the dictionary. *)
Definition put_book (productId : string) (ob : OrderBook) (s : State) : State :=
  set_orderBooks (<[productId := ob]> (orderBooks s)) s.

(** Lines 142-156: one delta applied to one side. *)
Definition apply_delta (price0 qty : Z) (side : list Order) : list Order :=
  match list_find (λ order, price order = price0) side with
  | Some (index, _) =>
      if bool_decide (qty = 0%Z) then delete index side
      else alter (set_amount qty) index side
  | None =>
      side ++ [ {| price := price0; amount := qty; total := 0 |} ]
  end.

(** Lines 159-161. *)
Definition publish (productId : string) (callback : Callback)
    (ob : OrderBook) (s : State) : State :=
  let ob := calcOrderBookTotal (sortOrderBook ob) in
  let s := put_book productId ob s in
  set_invoked (invoked s ++ [(callback, ob)]) s.

(** Lines 109-162.  [orderBookCallbacks] and [orderBooks] are plain
    objects, kept as the maps of their own keys.  [listenOrderBook] writes
    them under the id of a market of the store; a message reads them under
    [product_id], any string.  Where the message names a property of
    [Object.prototype] and no callback is stored under that name, line 111
    finds the built-in object, the guard of line 112 does not return, and
    the handler goes on with built-in objects as callback and as book,
    and writes [bids] and [asks] onto them: [Escape].  A market id is
    taken not to be such a name. *)
Definition handleOrderBookEvent (data : Data) : M unit := λ s,
  let productId := data_product_id data in
  match orderBookCallbacks s !! productId with
  | None =>
      (* line 111 finds undefined, or the built-in object of that name *)
      if inherited productId then Escape s else Return () s
  | Some callback =>
      let '(orderBook, s) :=
        match orderBooks s !! productId with
        | Some ob => (ob, s)
        | None =>
            let ob := {| bids := []; asks := [] |} in
            (ob, put_book productId ob s)
        end in
      if bool_decide (data_feed data = Some "book_snapshot") then
        match data_bids data with
        | None => Throw s
        | Some bids0 =>
            let orderBook := set_bids (level_to_order <$> bids0) orderBook in
            let s := put_book productId orderBook s in
            match data_asks data with
            | None => Throw s
            | Some asks0 =>
                let orderBook :=
                  set_asks (level_to_order <$> asks0) orderBook in
                Return () (publish productId callback orderBook s)
            end
        end
      else if bool_decide (data_feed data = Some "book") then
        let orderBook :=
          if String.eqb (data_side data) "buy" then
            set_bids
              (apply_delta (data_price data) (data_qty data) (bids orderBook))
              orderBook
          else
            set_asks
              (apply_delta (data_price data) (data_qty data) (asks orderBook))
              orderBook in
        Return () (publish productId callback orderBook s)
      else Return () (publish productId callback orderBook s)
  end.

(** [this.messageHandlers[feed]] and its call at line 79: one of the
    three handlers, or the built-in object that the dictionary inherits
    under that name, or nothing.  [__proto__] is not a function, and
    [__defineGetter__] and [__defineSetter__] raise when their second
    argument is not one, so for these three the call raises a
    [TypeError]; the calls of the other built-in functions are not
    followed. *)
Definition messageHandlers (f : string) : option (Data → M unit) :=
  if String.eqb f "ticker" then
    Some (λ data s, Return () (handleTickersEvent data s))
  else if String.eqb f "book_snapshot" then Some handleOrderBookEvent
  else if String.eqb f "book" then Some handleOrderBookEvent
  else if bool_decide
            (f ∈ ["__proto__"; "__defineGetter__"; "__defineSetter__"]) then
    Some (λ _ s, Throw s)
  else if inherited f then Some (λ _ s, Escape s)
  else None.

(** [json] is the value of [jsonParse(data)]: [jsonParse] of
    [utils/json-parse] is not among the sources and its result is taken
    as the input, [None] when it is falsy (the text is not JSON). *)
Definition onMessage (json : option Data) : M unit := λ s,
  if isDisposed s then Return () s
  else
    match json with
    | None => Return () s
    | Some json =>
        match data_feed json with
        | None => Return () s
        | Some f =>
            if bool_decide (f = "") then Return () s
            else
              match messageHandlers f with
              | Some handler => handler json s
              | None => Return () s
              end
        end
    end.

(** The function that [listenOrderBook] returns, by the closure it is. *)
Inductive Unsubscribe :=
| ClearRetry (timeoutId : nat)     (* lines 173-178 *)
| Nothing                          (* lines 183-184 *)
| Release (productId : string).    (* lines 200-214 *)

Definition listenOrderBook (symbol : string) (callback : Callback)
  : M Unsubscribe := λ s,
  if negb (loaded_markets (store s)) then
    let timeoutId := next_timer s in
    let t := {| timer_id := timeoutId; timer_symbol := symbol;
                timer_callback := callback |} in
    Return (ClearRetry timeoutId)
      (set_next_timer (S timeoutId) (set_timers (timers s ++ [t]) s))
  else
    match list_find (λ m, market_symbol m = symbol) (markets (store s)) with
    | None => Return Nothing s
    | Some (_, market) =>
        let productId := market_id market in
        match topics_get "book" (topics s) with
        | None => Throw s      (* this.topics.book is undefined *)
        | Some book =>
            let s :=
              match list_find (λ t, product_id t = productId) book with
              | Some _ => s
              | None =>
                  let s :=
                    set_topics
                      (topics_set "book"
                         (book ++ [ {| feed := "book";
                                       product_id := productId |} ])
                         (topics s)) s in
                  if isConnected s then subscribe s else s
              end in
            Return (Release productId)
              (set_orderBookCallbacks
                 (<[productId := callback]> (orderBookCallbacks s)) s)
        end
    end.

(** Calling the function that [listenOrderBook] returned.  [clearTimeout]
    of a timer that has fired or was cleared does nothing, and timer ids
    are not reused, so the assignment [timeoutId = null] is not observed. *)
Definition callUnsubscribe (u : Unsubscribe) : M unit := λ s,
  match u with
  | ClearRetry timeoutId =>
      Return () (set_timers (filter (λ t, timer_id t ≠ timeoutId) (timers s)) s)
  | Nothing => Return () s
  | Release productId =>
      match topics_get "book" (topics s) with
      | None => Throw s
      | Some book =>
          let s :=
            set_topics
              (topics_set "book"
                 (filter (λ t, product_id t ≠ productId) book) (topics s)) s in
          let s :=
            set_orderBookCallbacks (delete productId (orderBookCallbacks s)) s in
          let s := set_orderBooks (delete productId (orderBooks s)) s in
          if isConnected s then
            Return ()
              (send {| event := "unsubscribe"; cmd_feed := "book";
                       product_ids := [productId] |} s)
          else Return () s
      end
  end.

(** A pending timer fires: it leaves the timer table and its closure
    calls [listenOrderBook]; the function that call returns is dropped. *)
Definition fireTimer (timeoutId : nat) : M unit := λ s,
  match list_find (λ t, timer_id t = timeoutId) (timers s) with
  | None => Return () s
  | Some (_, t) =>
      let s := set_timers (filter (λ t, timer_id t ≠ timeoutId) (timers s)) s in
      bind (listenOrderBook (timer_symbol t) (timer_callback t))
           (λ _, Return ()) s
  end.

(** Modelled from the spec: [onClose] of [BaseWebSocket] ([base.ws]) is
    not among the sources.  Section 4.3: on a transport close the socket
    is dropped and, unless the session is disposed, the session re-enters
    [Connecting] at once. *)
Definition onClose (s : State) : State :=
  let s := set_ws None s in
  if isDisposed s then s else connectAndSubscribe s.

(** Modelled from the spec: [dispose] of [BaseWebSocket] ([base.ws]) is
    not among the sources.  Section 4.3: after disposal no transition
    occurs and the transport is closed. *)
Definition dispose (s : State) : State :=
  set_ws None (set_isDisposed true s).

(** What happens to the session: calls of its API and events of the
    transport, the timers and the store. *)
Inductive Event :=
| Start                                            (* connectAndSubscribe() *)
| WsOpen                                           (* 'open' *)
| WsMessage (json : option Data)                   (* 'message' *)
| WsClose                                          (* 'close' *)
| TimerFires (timeoutId : nat)
| MarketsLoaded (ms : list Market)                 (* store.update({markets, loaded}) *)
| Listen (symbol : string) (callback : Callback)   (* result dropped *)
| Unsub (u : Unsubscribe).

Definition step (e : Event) : M unit := λ s,
  match e with
  | Start => Return () (connectAndSubscribe s)
  | WsOpen =>
      match ws s with
      | Some _ => Return () (onOpen (set_ws (Some OPEN) s))
      | None => Return () s
      end
  | WsMessage json => onMessage json s
  | WsClose => Return () (onClose s)
  | TimerFires timeoutId => fireTimer timeoutId s
  | MarketsLoaded ms =>
      Return ()
        (set_store {| loaded_markets := true; markets := ms;
                      tickers := tickers (store s) |} s)
  | Listen symbol callback =>
      bind (listenOrderBook symbol callback) (λ _, Return ()) s
  | Unsub u => callUnsubscribe u s
  end.

(** The event loop: an exception that leaves a handler is reported and
    the next event is handled in the state it left.  A handler that
    escapes has changed nothing of the session when it does, and the next
    event is handled in that state, with the built-in objects taken as the
    engine created them. *)
Definition run (es : list Event) (s : State) : State :=
  foldl (λ s e, final (step e s)) s es.

End Pub.

(** ** Library functions of the platform *)

(** The functions of [crypto], [qs], [URL] and [JSON] that the adapter
    calls.  Byte buffers are strings.  The properties below hold for every
    implementation. *)
Class Platform := {
  (** [createHash('sha256').update(m).digest()] *)
  sha256 : string → string;
  (** [createHmac('sha512', key).update(m).digest()] *)
  hmac_sha512 : string → string → string;
  (** [Buffer.from(s, 'base64')] *)
  base64_decode : string → string;
  (** [buffer.toString('base64')] *)
  base64_encode : string → string;
  (** The objects given as [config.data] or [config.params]. *)
  Obj : Type;
  (** [JSON.stringify(o)] *)
  json_stringify : Obj → string;
  (** [qs.stringify(o)] *)
  qs_stringify : Obj → string;
  (** [{}] *)
  empty_object : Obj;
  (** [new URL(url, base).pathname] *)
  url_pathname : string → string → string
}.

(** ** kraken.ws-private.ts *)

Module Priv.
Import Js.

(** The value of [jsonParse(data)], as far as [onMessage] reads it. *)
Record Parsed := {
  parsed_event : option string;
  parsed_message : option string;
  parsed_feed : option string
}.

Inductive ReadyState := CONNECTING | OPEN.

(** A frame given to [ws.send]. *)
Inductive Frame :=
| Ping                                      (* {"event": "ping"} *)
| Challenge (api_key : string)
| Subscribe (feed api_key original_challenge signed_challenge : string).

#[global] Instance Frame_eq_dec : EqDecision Frame.
Proof. solve_decision. Defined.

(** A write to the store or the emitter by a handler of an account feed.
    What is written is outside this model; the handler that ran is
    recorded. *)
Inductive StoreWrite :=
| Latency (ms : Z)
| OpenOrdersSnapshot
| OpenOrdersFeed
| OpenPositionsFeed
| BalancesMessage.

Record State := {
  isDisposed : bool;
  ws : option ReadyState;
  pingAt : Z;
  pingTimeoutId : option nat;
  challenge : option string;          (* None: undefined *)
  signedChallenge : string;
  subscriptions : list (option string);
  timers : list nat;                  (* pending [setTimeout(() => this.ping(), 10_000)] *)
  next_timer : nat;
  sent : list Frame;                  (* oldest first *)
  writes : list StoreWrite;           (* oldest first *)
  sockets : nat                       (* sockets created so far *)
}.

Definition set_isDisposed v '(Build_State _ b c d e f g h i j k l) :=
  Build_State v b c d e f g h i j k l.
Definition set_ws v '(Build_State a _ c d e f g h i j k l) :=
  Build_State a v c d e f g h i j k l.
Definition set_pingAt v '(Build_State a b _ d e f g h i j k l) :=
  Build_State a b v d e f g h i j k l.
Definition set_pingTimeoutId v '(Build_State a b c _ e f g h i j k l) :=
  Build_State a b c v e f g h i j k l.
Definition set_challenge v '(Build_State a b c d _ f g h i j k l) :=
  Build_State a b c d v f g h i j k l.
Definition set_signedChallenge v '(Build_State a b c d e _ g h i j k l) :=
  Build_State a b c d e v g h i j k l.
Definition set_subscriptions v '(Build_State a b c d e f _ h i j k l) :=
  Build_State a b c d e f v h i j k l.
Definition set_timers v '(Build_State a b c d e f g _ i j k l) :=
  Build_State a b c d e f g v i j k l.
Definition set_next_timer v '(Build_State a b c d e f g h _ j k l) :=
  Build_State a b c d e f g h v j k l.
Definition set_sent v '(Build_State a b c d e f g h i _ k l) :=
  Build_State a b c d e f g h i v k l.
Definition set_writes v '(Build_State a b c d e f g h i j _ l) :=
  Build_State a b c d e f g h i j v l.
Definition set_sockets v '(Build_State a b c d e f g h i j k _) :=
  Build_State a b c d e f g h i j k v.

(** The state of a freshly constructed [KrakenPrivateWebSocket].
    Modelled from the spec: the fields [ws], [isDisposed], [pingAt] and
    [pingTimeoutId] are declared by [BaseWebSocket] ([base.ws]), which is
    not among the sources; section 3 lists them as the session's
    transport handle, state and last ping time. *)
Definition initial : State :=
  {| isDisposed := false; ws := None; pingAt := 0; pingTimeoutId := None;
     challenge := Some ""; signedChallenge := ""; subscriptions := [];
     timers := []; next_timer := 0; sent := []; writes := [];
     sockets := 0 |}.

Definition M (A : Type) := State → Result State A.

(** [this.ws?.send(payload)]. *)
Definition send (payload : Frame) (s : State) : State :=
  match ws s with
  | Some _ => set_sent (sent s ++ [payload]) s
  | None => s
  end.

Section WithOptions.
Context `{Platform}.
(** [this.parent.options.key] and [.secret]. *)
Variables (key secret : string).

Definition connectAndSubscribe (s : State) : State :=
  if isDisposed s then s
  else set_sockets (S (sockets s)) (set_ws (Some CONNECTING) s).

(** [now] is the value of [performance.now()]. *)
Definition ping (now : Z) (s : State) : State :=
  if isDisposed s then s
  else send Ping (set_pingAt now s).

Definition requestChallenge (s : State) : State :=
  send (Challenge key) s.

Definition onOpen (now : Z) (s : State) : State :=
  if isDisposed s then s
  else ping now (requestChallenge s).

(** [Math.round(diff / 2)] on integers: the half, rounded up. *)
Definition handlePongEvent (now : Z) (s : State) : State :=
  let diff := (now - pingAt s)%Z in
  let s := set_writes (writes s ++ [Latency ((diff + 1) / 2)%Z]) s in
  let s :=
    match pingTimeoutId s with
    | Some timeoutId =>
        set_pingTimeoutId None
          (set_timers (filter (λ t, t ≠ timeoutId) (timers s)) s)
    | None => s
    end in
  let timeoutId := next_timer s in
  set_pingTimeoutId (Some timeoutId)
    (set_next_timer (S timeoutId) (set_timers (timers s ++ [timeoutId]) s)).

Definition signChallenge (challenge : string) : string :=
  let sha256Hash := sha256 challenge in
  let decodedSecret := base64_decode secret in
  let hmacSha512 := hmac_sha512 decodedSecret sha256Hash in
  base64_encode hmacSha512.

Definition sendSubscribeRequest (s : State) : State :=
  match challenge s with
  | Some c =>
      if bool_decide (c ≠ "" ∧ signedChallenge s ≠ "") then
        foldl
          (λ s feed, send (Subscribe feed key c (signedChallenge s)) s)
          s ["open_orders"; "open_positions"; "balances"]
      else s
  | None => s
  end.

Definition is_event (parsed : option Parsed) (e : string) : bool :=
  match parsed with
  | Some p => bool_decide (parsed_event p = Some e)
  | None => false
  end.

Definition is_feed (parsed : option Parsed) (f : string) : bool :=
  match parsed with
  | Some p => bool_decide (parsed_feed p = Some f)
  | None => false
  end.

(** The message that stands for a pong: Kraken answers the unknown
    [ping] event with this alert. *)
Definition is_pong (parsed : option Parsed) : bool :=
  is_event parsed "alert"
  && match parsed with
     | Some p => bool_decide (parsed_message p = Some "Bad websocket message")
     | None => false
     end.

Definition handle (w : StoreWrite) (s : State) : State :=
  set_writes (writes s ++ [w]) s.

Definition onMessage (now : Z) (parsed : option Parsed) : M unit := λ s,
  if is_pong parsed then Return () (handlePongEvent now s)
  else if is_event parsed "challenge" then
    match parsed ≫= parsed_message with
    | Some c =>
        let s := set_challenge (Some c) s in
        let s := set_signedChallenge (signChallenge c) s in
        Return () (sendSubscribeRequest s)
    | None =>
        (* [createHash('sha256').update(undefined)] raises *)
        Throw (set_challenge None s)
    end
  else if is_event parsed "subscribed" then
    let f := parsed ≫= parsed_feed in
    Return ()
      (if bool_decide (f ∈ subscriptions s) then s
       else set_subscriptions (subscriptions s ++ [f]) s)
  else if is_feed parsed "open_orders_snapshot" then
    Return () (handle OpenOrdersSnapshot s)
  else if is_feed parsed "open_orders" then
    Return () (handle OpenOrdersFeed s)
  else if is_feed parsed "open_positions" then
    Return () (handle OpenPositionsFeed s)
  else if is_feed parsed "balances" || is_feed parsed "balances_snapshot" then
    Return () (handle BalancesMessage s)
  else Return () s.

(** A pending ping timer fires. *)
Definition fireTimer (now : Z) (timeoutId : nat) (s : State) : State :=
  if bool_decide (timeoutId ∈ timers s) then
    ping now (set_timers (filter (λ t, t ≠ timeoutId) (timers s)) s)
  else s.

(** Modelled from the spec: [onClose] of [BaseWebSocket] ([base.ws]) is
    not among the sources.  Section 4.3: on a transport close the
    socket is dropped and, unless the session is disposed, the session
    re-enters [Connecting] at once. *)
Definition onClose (s : State) : State :=
  let s := set_ws None s in
  if isDisposed s then s else connectAndSubscribe s.

(** What happens to the session; [now] is the reading of
    [performance.now()] when the handler runs. *)
Inductive Event :=
| Start                                       (* connectAndSubscribe() *)
| WsOpen (now : Z)                            (* 'open' *)
| WsMessage (now : Z) (parsed : option Parsed)
| WsClose                                     (* 'close' *)
| TimerFires (now : Z) (timeoutId : nat).

Definition step (e : Event) : M unit := λ s,
  match e with
  | Start => Return () (connectAndSubscribe s)
  | WsOpen now =>
      match ws s with
      | Some _ => Return () (onOpen now (set_ws (Some OPEN) s))
      | None => Return () s
      end
  | WsMessage now parsed => onMessage now parsed s
  | WsClose => Return () (onClose s)
  | TimerFires now timeoutId => Return () (fireTimer now timeoutId s)
  end.

Definition run (es : list Event) (s : State) : State :=
  foldl (λ s e, final (step e s)) s es.

End WithOptions.

End Priv.

(** ** kraken.types.ts and kraken.api.ts *)

Module Api.

Definition RECV_WINDOW : Z := 5000.

Definition BASE_URL_livenet : string := "https://futures.kraken.com".
Definition BASE_URL_testnet : string := "https://demo-futures.kraken.com".

Definition ENDPOINTS_MARKETS : string := "/derivatives/api/v3/instruments".
Definition ENDPOINTS_TICKERS : string := "/derivatives/api/v3/tickers".
Definition ENDPOINTS_KLINE : string := "/api/charts/v1".

Definition PUBLIC_ENDPOINTS : list string :=
  [ ENDPOINTS_MARKETS; ENDPOINTS_TICKERS; ENDPOINTS_MARKETS; ENDPOINTS_KLINE ].

(** The fields of [ExchangeOptions] that [createAPI] reads;
    [recvWindow] is [options.extra.recvWindow]. *)
Record ExchangeOptions := {
  key : string;
  secret : string;
  testnet : bool;
  corsAnywhere : option string;
  recvWindow : option Z
}.

Definition getBaseURL (options : ExchangeOptions) : string :=
  let baseURL := if testnet options then BASE_URL_testnet else BASE_URL_livenet in
  match corsAnywhere options with
  | Some c => if bool_decide (c = "") then baseURL else c +:+ "/" +:+ baseURL
  | None => baseURL
  end.

(** [c.toUpperCase()] on an ASCII letter. *)
Definition upper (c : ascii) : ascii :=
  let n := nat_of_ascii c in
  if bool_decide (97 ≤ n ≤ 122) then ascii_of_nat (n - 32) else c.

Fixpoint toUpperCase (s : string) : string :=
  match s with
  | EmptyString => EmptyString
  | String c r => String (upper c) (toUpperCase r)
  end.

Definition lower (c : ascii) : ascii :=
  let n := nat_of_ascii c in
  if bool_decide (65 ≤ n ≤ 90) then ascii_of_nat (n + 32) else c.

Fixpoint toLowerCase (s : string) : string :=
  match s with
  | EmptyString => EmptyString
  | String c r => String (lower c) (toLowerCase r)
  end.

(** A name of ASCII characters, as a header name is; on such a name
    [toLowerCase] above is the one of JavaScript. *)
Fixpoint is_ascii (s : string) : bool :=
  match s with
  | EmptyString => true
  | String c r => bool_decide (nat_of_ascii c < 128) && is_ascii r
  end.

(** [(n).toString()] of an integer. *)
Definition toString (n : Z) : string := NilZero.string_of_int (Z.to_int n).

Section WithPlatform.
Context `{Platform}.

(** [config.data]: a string or an object. *)
Inductive Body :=
| Text (s : string)
| Object (o : Obj).

(** The fields of the axios request configuration that the
    interceptor reads or writes.  [headers] is the [AxiosHeaders] of the
    request by header name, in the spelling of the code.  [AxiosHeaders]
    matches names without regard to letter case, so [set] replaces a
    header that the request carries in another spelling; the map holds
    one spelling of a name, and what is said of a header of another name
    is said of names that differ in more than case. *)
Record Config := {
  url : option string;
  method : option string;
  data : option Body;
  params : option Obj;
  headers : gmap string string;
  timeout : option Z
}.

(** [PUBLIC_ENDPOINTS.some((str) => config.url?.startsWith(str))]. *)
Definition is_public (config : Config) : bool :=
  existsb
    (λ str, match url config with
            | Some u => String.prefix str u
            | None => false
            end)
    PUBLIC_ENDPOINTS.

(** The request interceptor of [createAPI]; [now] is the value of
    [Date.now()]. *)
Definition interceptor (options : ExchangeOptions) (now : Z)
    (config : Config) : Config :=
  if is_public config then config
  else
    let baseURL := getBaseURL options in
    let nonce := toString (now * 1000) in
    let endpointPath := url_pathname (default "" (url config)) baseURL in
    let endpointPath :=
      if String.prefix "/derivatives" endpointPath then
        String.substring 12 (String.length endpointPath - 12) endpointPath
      else endpointPath in
    let '(message, contentType, data', params') :=
      match data config with
      | Some (Text s) =>
          if bool_decide (s = "") then
            (* an empty string is falsy *)
            match params config with
            | Some p =>
                let paramsString := qs_stringify p in
                if bool_decide (toUpperCase <$> method config = Some "POST")
                then (paramsString +:+ nonce +:+ endpointPath,
                      "application/x-www-form-urlencoded",
                      Some (Text paramsString), Some empty_object)
                else (paramsString +:+ nonce +:+ endpointPath,
                      "application/x-www-form-urlencoded",
                      data config, params config)
            | None =>
                (nonce +:+ endpointPath, "application/json",
                 data config, params config)
            end
          else
            (s +:+ nonce +:+ endpointPath,
             "application/x-www-form-urlencoded",
             data config, params config)
      | Some (Object o) =>
          let dataString := json_stringify o in
          (dataString +:+ nonce +:+ endpointPath, "application/json",
           Some (Text dataString), params config)
      | None =>
          match params config with
          | Some p =>
              let paramsString := qs_stringify p in
              if bool_decide (toUpperCase <$> method config = Some "POST")
              then (paramsString +:+ nonce +:+ endpointPath,
                    "application/x-www-form-urlencoded",
                    Some (Text paramsString), Some empty_object)
              else (paramsString +:+ nonce +:+ endpointPath,
                    "application/x-www-form-urlencoded",
                    data config, params config)
          | None =>
              (nonce +:+ endpointPath, "application/json",
               data config, params config)
          end
      end in
    let sha256Hash := sha256 message in
    let apiSecret := base64_decode (secret options) in
    let signature := base64_encode (hmac_sha512 apiSecret sha256Hash) in
    let headers' :=
      <["Content-Type" := contentType]>
        (<["Authent" := signature]>
           (<["Nonce" := nonce]>
              (<["APIKey" := key options]> (headers config)))) in
    {| url := url config; method := method config;
       data := data'; params := params';
       headers := headers';
       timeout := Some (default RECV_WINDOW (recvWindow options)) |}.

(** The number carried by the [Nonce] header of a request. *)
Definition nonce_of (config : Config) : option Z :=
  Z.of_int <$> (headers config !! "Nonce" ≫= NilZero.int_of_string).

(** Requests signed one after the other: each with the reading of
    [Date.now()] at which the interceptor runs. *)
Definition sign_all (options : ExchangeOptions)
    (requests : list (Z * Config)) : list Config :=
  (λ r, interceptor options r.1 r.2) <$> requests.

End WithPlatform.

End Api.

(** ** What the specification asks of a book *)

Module Spec.
Import Js Orderbook Pub.

Definition strictly_descending (l : list Order) : Prop :=
  StronglySorted (λ a b, (price b < price a)%Z) l.

Definition strictly_ascending (l : list Order) : Prop :=
  StronglySorted (λ a b, (price a < price b)%Z) l.

Definition unique_prices (l : list Order) : Prop :=
  NoDup (price <$> l).

(** The total of the level at index [i] is the sum of the amounts of the
    levels [0..i]. *)
Definition totals_ok (l : list Order) : Prop :=
  ∀ i o, l !! i = Some o → total o = sum_amounts (take (S i) l).

Record book_ok (ob : OrderBook) : Prop := {
  bids_sorted : strictly_descending (bids ob);
  asks_sorted : strictly_ascending (asks ob);
  bids_unique : unique_prices (bids ob);
  asks_unique : unique_prices (asks ob);
  bids_totals : totals_ok (bids ob);
  asks_totals : totals_ok (asks ob)
}.

(** A [book_snapshot] message for [productId]. *)
Definition snapshot (productId : string) (bids0 asks0 : list Level) : Data :=
  {| data_feed := Some "book_snapshot"; data_product_id := productId;
     data_bids := Some bids0; data_asks := Some asks0;
     data_price := 0; data_qty := 0; data_side := ""; data_ticker := ∅ |}.

(** A [book] message for [productId]: one level of one side. *)
Definition delta (productId side : string) (price0 qty : Z) : Data :=
  {| data_feed := Some "book"; data_product_id := productId;
     data_bids := None; data_asks := None;
     data_price := price0; data_qty := qty; data_side := side;
     data_ticker := ∅ |}.

Definition is_delta (productId : string) (data : Data) : Prop :=
  data_feed data = Some "book" ∧ data_product_id data = productId.

(** The messages handled one after the other by [handleOrderBookEvent]. *)
Fixpoint handleAll (ds : list Data) : M unit :=
  match ds with
  | [] => Return ()
  | d :: r => bind (handleOrderBookEvent d) (λ _, handleAll r)
  end.

(** A key that names no property of [Object.prototype], neither one of
    the engine nor one that an order-book handler may have written there:
    a plain object finds a value under it only if it holds the key. *)
Definition plain (key : string) : Prop :=
  key ∉ object_prototype_names ++ written_names.



(** A [book_snapshot] message that has [bids] but no [asks]. *)
Definition snapshot_without_asks : Data :=
  {| data_feed := Some "book_snapshot"; data_product_id := "PF_XBTUSD";
     data_bids := Some [ {| level_price := 98; level_qty := 1 |};
                         {| level_price := 99; level_qty := 4 |} ];
     data_asks := None;
     data_price := 0; data_qty := 0; data_side := ""; data_ticker := ∅ |}.

(** A session with one registered listener and no book yet. *)
Definition listening (productId : string) (callback : Callback) : State :=
  set_orderBookCallbacks {[ productId := callback ]}
    (initial {| loaded_markets := true; markets := []; tickers := [] |}).

(** The frames that one call of [subscribe] gives to an existing socket:
    one per distinct feed of the topics, naming the products of that
    feed. *)
Definition subscribe_commands (s : State) : list Command :=
  let topics := concat (snd <$> topics s) in
  omap
    (λ f,
       let product_ids := product_id <$> filter (λ t, feed t = f) topics in
       if bool_decide (0 < length product_ids) then
         Some {| event := "subscribe"; cmd_feed := f;
                 product_ids := product_ids |}
       else None)
    (uniq (feed <$> topics)).

(** The topic that [listenOrderBook] pushes for [productId]. *)
Definition book_topic (productId : string) : Topic :=
  {| feed := "book"; product_id := productId |}.

(** The frame that a returned unsubscribe function sends. *)
Definition unsubscribe_command (productId : string) : Command :=
  {| event := "unsubscribe"; cmd_feed := "book"; product_ids := [productId] |}.

(** A subscribe command of the book feed that names [productId]. *)
Definition subscribes_book (productId : string) (c : Command) : Prop :=
  event c = "subscribe" ∧ cmd_feed c = "book" ∧ productId ∈ product_ids c.

(** An unsubscribe command of the book feed that names [productId]. *)
Definition unsubscribes_book (productId : string) (c : Command) : Prop :=
  event c = "unsubscribe" ∧ cmd_feed c = "book" ∧ productId ∈ product_ids c.

#[global] Instance subscribes_book_dec p c : Decision (subscribes_book p c).
Proof. unfold subscribes_book. apply _. Defined.

#[global] Instance unsubscribes_book_dec p c : Decision (unsubscribes_book p c).
Proof. unfold unsubscribes_book. apply _. Defined.

(** The number of elements of [l] that satisfy [P]. *)
Definition count {A} (P : A → Prop) `{∀ x, Decision (P x)} (l : list A) : nat :=
  length (filter P l).

(** [listenOrderBook] called once per callback, for one symbol; the
    functions it returned, in order. *)
Fixpoint acquire (symbol : string) (cbs : list Callback) : M (list Unsubscribe) :=
  match cbs with
  | [] => Return []
  | cb :: r =>
      bind (listenOrderBook symbol cb)
        (λ u, bind (acquire symbol r) (λ us, Return (u :: us)))
  end.

(** The returned functions called one after the other. *)
Fixpoint release (us : list Unsubscribe) : M unit :=
  match us with
  | [] => Return ()
  | u :: r => bind (callUnsubscribe u) (λ _, release r)
  end.

(** A store with the one market of the examples. *)
Definition one_market : list Market :=
  [ {| market_id := "PF_XBTUSD"; market_symbol := "XBTUSD" |} ].

Definition loaded_store : Store :=
  {| loaded_markets := true; markets := one_market; tickers := [] |}.

Definition unloaded_store : Store :=
  {| loaded_markets := false; markets := []; tickers := [] |}.

(** A connected session: markets loaded, socket created and open. *)
Definition connected : State :=
  run [Start; WsOpen] (initial loaded_store).




(** An event of the private session other than a close of the transport
    and a call of [connectAndSubscribe]: an open of the socket, a message
    (a pong included) or a timer that fires. *)
Definition no_close (e : Priv.Event) : Prop :=
  match e with
  | Priv.WsOpen _ | Priv.WsMessage _ _ | Priv.TimerFires _ _ => True
  | Priv.Start | Priv.WsClose => False
  end.

(** An event of the private session that is neither a pong nor a
    transport event: another message, or a timer that fires. *)
Definition quiet (e : Priv.Event) : Prop :=
  match e with
  | Priv.WsMessage _ parsed => Priv.is_pong parsed = false
  | Priv.TimerFires _ _ => True
  | _ => False
  end.

(** The number of pings among the frames sent. *)
Definition pings (l : list Priv.Frame) : nat :=
  count (λ f, f = Priv.Ping) l.

(** A [balances] message of the private feed. *)
Definition balances_message : Priv.Parsed :=
  {| Priv.parsed_event := None; Priv.parsed_message := None;
     Priv.parsed_feed := Some "balances" |}.

(** A platform to run the examples on: hashing and encoding leave the
    text as it is, objects are their serialization and the path of a URL
    is the URL. *)
Definition example_platform : Platform :=
  {| sha256 := λ m, m;
     hmac_sha512 := λ k m, k +:+ m;
     base64_decode := λ x, x;
     base64_encode := λ x, x;
     Obj := string;
     json_stringify := λ o, o;
     qs_stringify := λ o, o;
     empty_object := "";
     url_pathname := λ u _, u |}.

Definition example_options : Api.ExchangeOptions :=
  {| Api.key := "key"; Api.secret := "c2VjcmV0"; Api.testnet := false;
     Api.corsAnywhere := None; Api.recvWindow := None |}.

(** A request for the open orders: an authenticated endpoint. *)
Definition open_orders_request : @Api.Config example_platform :=
  {| Api.url := Some "/derivatives/api/v3/openorders";
     Api.method := Some "get"; Api.data := None; Api.params := None;
     Api.headers := ∅; Api.timeout := None |}.

End Spec.

(** ** kraken.utils.ts *)

Module KrakenUtils.

(** [s.slice(n)]. *)
Fixpoint string_drop (n : nat) (s : string) : string :=
  match n, s with
  | 0, _ => s
  | S n, String _ r => string_drop n r
  | S _, EmptyString => EmptyString
  end.

(** [s.replace(pattern, replacement)] for a string pattern and a
    replacement without [$]: the first occurrence is replaced. *)
Fixpoint replace_first (pattern replacement s : string) : string :=
  if String.prefix pattern s then
    replacement +:+ string_drop (String.length pattern) s
  else
    match s with
    | EmptyString => EmptyString
    | String c r => String c (replace_first pattern replacement r)
    end.

(** [normalizeSymbol]; [None] is [undefined].  [memoize] caches the result
    by argument, which a function without effects does not show. *)
Definition normalizeSymbol (str : option string) : string :=
  match str with
  | None => ""
  | Some s => if bool_decide (s = "") then "" else replace_first "PF_" "" s
  end.

Definition reverseSymbol (str : string) : string := "PF_" +:+ str.

End KrakenUtils.

(** ** kraken.types.ts: the endpoints that are not public *)

Module Endpoints.

Definition ACCOUNT : string := "/derivatives/api/v3/subaccounts".
Definition BALANCE : string := "/derivatives/api/v3/accounts".
Definition POSITIONS : string := "/derivatives/api/v3/openpositions".
Definition ORDERS : string := "/derivatives/api/v3/openorders".
Definition CANCEL_ALL_ORDERS : string := "/derivatives/api/v3/cancelallorders".
Definition PLACE_ORDER : string := "/derivatives/api/v3/sendorder".
Definition PLACE_ORDERS : string := "/derivatives/api/v3/batchorder".
Definition CANCEL_ORDERS : string := "/derivatives/api/v3/batchorder".

(** The endpoints of [ENDPOINTS] that are not in [PUBLIC_ENDPOINTS]. *)
Definition authenticated : list string :=
  [ ACCOUNT; BALANCE; POSITIONS; ORDERS; CANCEL_ALL_ORDERS; PLACE_ORDER;
    PLACE_ORDERS; CANCEL_ORDERS ].

End Endpoints.

(** ** Further notions used by the properties *)

Module Extra.
Import Js Orderbook Pub Spec.

(** The price and amount of each level of a side. *)
Definition levels (l : list Order) : list (Z * Z) :=
  (λ o, (price o, amount o)) <$> l.

(** The side of a book that a delta with [side] changes, and the other. *)
Definition side_of (side : string) (ob : OrderBook) : list Order :=
  if String.eqb side "buy" then bids ob else asks ob.

Definition other_side_of (side : string) (ob : OrderBook) : list Order :=
  if String.eqb side "buy" then asks ob else bids ob.

(** No product has two book topics. *)
Definition book_topics_unique (s : State) : Prop :=
  ∀ bk, topics_get "book" (topics s) = Some bk → NoDup (product_id <$> bk).

(** A book is kept only for a product that has a callback. *)
Definition books_have_listeners (s : State) : Prop :=
  ∀ p, is_Some (orderBooks s !! p) → is_Some (orderBookCallbacks s !! p).

(** An event that names no property of [Object.prototype], built-in or
    written by a handler: any call or event but a message whose [feed] or
    [product_id] is such a name. *)
Definition ordinary (e : Event) : Prop :=
  match e with
  | WsMessage (Some d) =>
      plain (data_product_id d)
      ∧ ∀ f, data_feed d = Some f → plain f
  | _ => True
  end.

(** The ids of the pending retry timers are below the next id. *)
Definition timers_fresh (s : State) : Prop :=
  Forall (λ t, timer_id t < next_timer s) (timers s).

(** The ticker subscription that the first [subscribe] of a connection
    sends for the markets [ms]. *)
Definition ticker_subscription (ms : list Market) : list Command :=
  match ms with
  | [] => []
  | _ => [ {| event := "subscribe"; cmd_feed := "ticker";
              product_ids := market_id <$> ms |} ]
  end.

(** A [challenge] message of the private feed. *)
Definition challenge_message (c : string) : Priv.Parsed :=
  {| Priv.parsed_event := Some "challenge"; Priv.parsed_message := Some c;
     Priv.parsed_feed := None |}.

(** The pong of the private feed. *)
Definition pong_message : Priv.Parsed :=
  {| Priv.parsed_event := Some "alert";
     Priv.parsed_message := Some "Bad websocket message";
     Priv.parsed_feed := None |}.

(** At most one ping timer is pending, and it is the one that
    [pingTimeoutId] holds. *)
Definition one_ping_timer (s : Priv.State) : Prop :=
  Priv.timers s = []
  ∨ ∃ timeoutId, Priv.timers s = [timeoutId]
                 ∧ Priv.pingTimeoutId s = Some timeoutId.


(** The [Authent] header for a message: SHA-256, then HMAC-SHA-512 with
    the decoded secret, in base64. *)
Definition sign `{Platform} (options : Api.ExchangeOptions) (message : string)
  : string :=
  base64_encode (hmac_sha512 (base64_decode (Api.secret options)) (sha256 message)).

(** The four headers that the interceptor sets. *)
Definition signing_headers : list string :=
  ["APIKey"; "Nonce"; "Authent"; "Content-Type"].

(** A ticker message with a mark price and a bid. *)
Definition ticker_message : Data :=
  {| data_feed := Some "ticker"; data_product_id := "PF_XBTUSD";
     data_bids := None; data_asks := None;
     data_price := 0; data_qty := 0; data_side := "";
     data_ticker := {[ "markPrice" := 30000%Z; "bid" := 29999%Z ]} |}.

(** A session that listens to PF_XBTUSD and has received a snapshot, and
    the book it then holds. *)
Definition example_book : OrderBook :=
  {| bids := [ {| price := 100; amount := 2; total := 2 |};
               {| price := 99; amount := 1; total := 3 |} ];
     asks := [ {| price := 101; amount := 3; total := 3 |} ] |}.

Definition with_book : State :=
  final
    (handleOrderBookEvent
       (snapshot "PF_XBTUSD"
          [ {| level_price := 99; level_qty := 1 |};
            {| level_price := 100; level_qty := 2 |} ]
          [ {| level_price := 101; level_qty := 3 |} ])
       (listening "PF_XBTUSD" 7)).

(** Requests to run the examples on: candles (public), an order sent with
    query parameters, and a batch given as an object. *)
Definition candles_request : @Api.Config example_platform :=
  {| Api.url := Some "/api/charts/v1/trade/PF_XBTUSD/1h";
     Api.method := Some "get"; Api.data := None; Api.params := None;
     Api.headers := {[ "Accept" := "application/json" ]};
     Api.timeout := None |}.

Definition send_order_request : @Api.Config example_platform :=
  {| Api.url := Some "/derivatives/api/v3/sendorder";
     Api.method := Some "post"; Api.data := None;
     Api.params := Some ("symbol=PF_XBTUSD&side=buy&size=1" : @Obj example_platform);
     Api.headers := {[ "Accept" := "application/json" ]};
     Api.timeout := None |}.

Definition batch_request : @Api.Config example_platform :=
  {| Api.url := Some "/derivatives/api/v3/batchorder";
     Api.method := Some "post";
     Api.data :=
       Some (@Api.Object example_platform
               ("{batchOrder:[]}" : @Obj example_platform));
     Api.params := None;
     Api.headers := ∅; Api.timeout := None |}.

End Extra.

(** * Properties *)

Import Orderbook Spec.

(** ** The helpers of utils/orderbook *)

Section Sorting.
Variable before : Z → Z → bool.
Hypothesis before_total : ∀ a b, before a b = false → before b a = true.
Hypothesis before_trans :
  ∀ a b c, before a b = true → before b c = true → before a c = true.

Let R (a b : Order) : Prop := before (price a) (price b) = true.

Lemma insert_level_perm x l : insert_level before x l ≡ₚ x :: l.
Proof.
  induction l as [|y l IH]; simpl; [done|].
  destruct (before (price x) (price y)); [done|].
  rewrite IH. apply Permutation_swap.
Qed.

Lemma sort_levels_perm l : sort_levels before l ≡ₚ l.
Proof.
  induction l as [|x l IH]; simpl; [done|].
  rewrite insert_level_perm. by rewrite IH.
Qed.

Lemma insert_level_sorted x l :
  StronglySorted R l → StronglySorted R (insert_level before x l).
Proof.
  induction 1 as [|y l Hl IH Hy]; simpl.
  - repeat constructor.
  - destruct (before (price x) (price y)) eqn:E.
    + constructor; [by constructor|].
      constructor; [done|].
      eapply Forall_impl; [exact Hy|].
      intros z Hz. unfold R in *. eauto.
    + constructor; [done|].
      rewrite insert_level_perm. constructor; [|done].
      unfold R. auto.
Qed.

Lemma sort_levels_sorted l : StronglySorted R (sort_levels before l).
Proof.
  induction l as [|x l IH]; simpl; [constructor|].
  by apply insert_level_sorted.
Qed.
End Sorting.

Lemma sorted_strict (R S : Order → Order → Prop) l :
  (∀ a b, R a b → price a ≠ price b → S a b) →
  StronglySorted R l → NoDup (price <$> l) → StronglySorted S l.
Proof.
  intros HRS. induction 1 as [|x l Hl IH Hx]; intros Hnd; [constructor|].
  rewrite fmap_cons in Hnd. apply NoDup_cons in Hnd as [Hnotin Hnd].
  constructor; [auto|].
  rewrite Forall_forall in Hx. apply Forall_forall. intros y Hy.
  apply HRS; [auto|]. intros Heq. apply Hnotin. rewrite Heq.
  apply list_elem_of_fmap. eauto.
Qed.

Lemma sort_bids_strict l :
  unique_prices l → strictly_descending (sort_levels Z.geb l).
Proof.
  intros Hnd.
  apply (sorted_strict (λ a b, (price a >=? price b)%Z = true)).
  - intros a b H Hne. apply Z.geb_le in H. lia.
  - apply sort_levels_sorted; intros; rewrite ?Z.geb_leb in *; lia.
  - unfold unique_prices in Hnd. by rewrite sort_levels_perm.
Qed.

Lemma sort_asks_strict l :
  unique_prices l → strictly_ascending (sort_levels Z.leb l).
Proof.
  intros Hnd.
  apply (sorted_strict (λ a b, (price a <=? price b)%Z = true)).
  - intros a b H Hne. apply Z.leb_le in H. lia.
  - apply sort_levels_sorted; intros; lia.
  - unfold unique_prices in Hnd. by rewrite sort_levels_perm.
Qed.

Lemma running_total_price acc l : price <$> running_total acc l = price <$> l.
Proof. revert acc. induction l as [|o l IH]; intros acc; simpl; [done|]. by rewrite IH. Qed.

Lemma running_total_amount acc l : amount <$> running_total acc l = amount <$> l.
Proof. revert acc. induction l as [|o l IH]; intros acc; simpl; [done|]. by rewrite IH. Qed.

Lemma sum_amounts_running_total acc l n :
  sum_amounts (take n (running_total acc l)) = sum_amounts (take n l).
Proof.
  revert acc n. induction l as [|o l IH]; intros acc [|n]; simpl; try done.
  by rewrite IH.
Qed.

Lemma running_total_lookup acc l i o :
  running_total acc l !! i = Some o →
  total o = (acc + sum_amounts (take (S i) l))%Z.
Proof.
  revert acc i. induction l as [|x l IH]; intros acc i; simpl; [done|].
  destruct i as [|i]; simpl.
  - intros [= <-]. simpl. destruct l; simpl; lia.
  - intros H. apply IH in H. rewrite H. simpl. lia.
Qed.

Lemma running_total_ok l : totals_ok (running_total 0 l).
Proof.
  intros i o H. rewrite sum_amounts_running_total.
  apply running_total_lookup in H. lia.
Qed.

Lemma running_total_sorted (S : Order → Order → Prop) acc l :
  (∀ a b t u, S a b → S (set_total t a) (set_total u b)) →
  StronglySorted S l → StronglySorted S (running_total acc l).
Proof.
  intros HS H. revert acc. induction H as [|x l Hl IH Hx]; intros acc; simpl.
  - constructor.
  - constructor; [apply IH|].
    clear IH Hl. generalize (acc + amount x)%Z at 2. revert Hx.
    induction l as [|y l IHl]; intros Hx t; simpl; [constructor|].
    apply Forall_cons in Hx as [Hxy Hx]. constructor; [by apply HS|by apply IHl].
Qed.

(** What [sortOrderBook] and [calcOrderBookTotal] establish together on a
    book whose sides have one level per price. *)
Lemma sort_calc_ok ob :
  unique_prices (bids ob) → unique_prices (asks ob) →
  book_ok (calcOrderBookTotal (sortOrderBook ob)).
Proof.
  intros Hb Ha. split; simpl.
  - apply running_total_sorted; [by intros [] []|]. by apply sort_bids_strict.
  - apply running_total_sorted; [by intros [] []|]. by apply sort_asks_strict.
  - unfold unique_prices. by rewrite running_total_price, sort_levels_perm.
  - unfold unique_prices. by rewrite running_total_price, sort_levels_perm.
  - apply running_total_ok.
  - apply running_total_ok.
Qed.

(** ** The order-book synchronizer *)

Lemma apply_delta_unique p q side :
  unique_prices side → unique_prices (Pub.apply_delta p q side).
Proof.
  unfold unique_prices, Pub.apply_delta. intros Hnd.
  destruct (list_find _ side) as [[i o]|] eqn:Hfind.
  - case_bool_decide.
    + rewrite list_fmap_delete.
      eapply sublist_NoDup; [done|apply sublist_delete].
    + rewrite (list_fmap_alter price (set_amount q) id); [|by apply Forall_true].
      by rewrite list_alter_id.
  - rewrite fmap_app. apply NoDup_app. split_and!; [done| |apply NoDup_singleton].
    intros x Hx Hin. apply list_elem_of_singleton in Hin. subst x.
    apply list_elem_of_fmap in Hx as (o & Ho & Hin).
    apply list_find_None in Hfind. rewrite Forall_forall in Hfind.
    by apply (Hfind o).
Qed.

Lemma level_to_order_price (l : list Pub.Level) :
  price <$> (Pub.level_to_order <$> l) = Pub.level_price <$> l.
Proof. by rewrite <- list_fmap_compose. Qed.

Lemma publish_callbacks p cb ob s :
  Pub.orderBookCallbacks (Pub.publish p cb ob s) = Pub.orderBookCallbacks s.
Proof. by destruct s. Qed.

Lemma publish_book p cb ob s :
  Pub.orderBooks (Pub.publish p cb ob s) !! p
  = Some (calcOrderBookTotal (sortOrderBook ob)).
Proof. destruct s; simpl. apply lookup_insert_eq. Qed.

Lemma put_book_callbacks p ob s :
  Pub.orderBookCallbacks (Pub.put_book p ob s) = Pub.orderBookCallbacks s.
Proof. by destruct s. Qed.

(** A snapshot with one level per price on each side leaves a well-formed
    book, whatever was there before. *)
Lemma snapshot_ok s p cb bs aks :
  Pub.orderBookCallbacks s !! p = Some cb →
  NoDup (Pub.level_price <$> bs) → NoDup (Pub.level_price <$> aks) →
  ∃ s' ob, Pub.handleOrderBookEvent (snapshot p bs aks) s = Js.Return () s'
    ∧ Pub.orderBookCallbacks s' = Pub.orderBookCallbacks s
    ∧ Pub.orderBooks s' !! p = Some ob ∧ book_ok ob.
Proof.
  intros Hcb Hb Ha. unfold Pub.handleOrderBookEvent. simpl. rewrite Hcb.
  destruct (Pub.orderBooks s !! p) as [ob|]; simpl;
    (eexists _, _; split; [reflexivity|]);
    rewrite publish_callbacks, !put_book_callbacks, publish_book;
    (split_and!; [done|done|]);
    apply sort_calc_ok; simpl; unfold unique_prices;
    by rewrite level_to_order_price.
Qed.

(** A delta keeps a book with one level per price well formed. *)
Lemma delta_ok s p cb ob d :
  Pub.orderBookCallbacks s !! p = Some cb →
  Pub.orderBooks s !! p = Some ob →
  unique_prices (bids ob) → unique_prices (asks ob) →
  is_delta p d →
  ∃ s' ob', Pub.handleOrderBookEvent d s = Js.Return () s'
    ∧ Pub.orderBookCallbacks s' = Pub.orderBookCallbacks s
    ∧ Pub.orderBooks s' !! p = Some ob' ∧ book_ok ob'.
Proof.
  intros Hcb Hob Hb Ha [Hfeed Hp]. unfold Pub.handleOrderBookEvent.
  rewrite Hp, Hcb, Hob, Hfeed. simpl.
  eexists _, _. split; [reflexivity|].
  rewrite publish_callbacks, publish_book. split_and!; [done|done|].
  apply sort_calc_ok; destruct (String.eqb _ _); simpl;
    auto using apply_delta_unique.
Qed.

Lemma deltas_ok ds : ∀ s p cb ob,
  Pub.orderBookCallbacks s !! p = Some cb →
  Pub.orderBooks s !! p = Some ob → book_ok ob →
  Forall (is_delta p) ds →
  ∃ s' ob', handleAll ds s = Js.Return () s'
    ∧ Pub.orderBooks s' !! p = Some ob' ∧ book_ok ob'.
Proof.
  induction ds as [|d ds IH]; intros s p cb ob Hcb Hob Hok Hds; simpl.
  - eauto.
  - apply Forall_cons in Hds as [Hd Hds].
    destruct (delta_ok s p cb ob d) as (s1 & ob1 & Hrun & Hcb1 & Hob1 & Hok1);
      [done|done|apply Hok|apply Hok|done|].
    unfold Js.bind. rewrite Hrun.
    apply (IH s1 p cb ob1); [by rewrite Hcb1|done|done|done].
Qed.

(** C1, as amended: for every product with a registered listener, a
    snapshot that lists each price at most once per side, followed by any
    sequence of deltas for that product, is handled without an exception
    and leaves a book whose bids are strictly descending and whose asks
    are strictly ascending by price, with one level per price, the total
    at index [i] being the sum of the amounts of the levels [0..i]. *)
Theorem C1_snapshot_then_deltas_converge s p cb bs aks ds :
  Pub.orderBookCallbacks s !! p = Some cb →
  NoDup (Pub.level_price <$> bs) → NoDup (Pub.level_price <$> aks) →
  Forall (is_delta p) ds →
  ∃ s' ob, handleAll (snapshot p bs aks :: ds) s = Js.Return () s'
    ∧ Pub.orderBooks s' !! p = Some ob ∧ book_ok ob.
Proof.
  intros Hcb Hb Ha Hds. simpl.
  destruct (snapshot_ok s p cb bs aks) as (s1 & ob1 & Hrun & Hcb1 & Hob1 & Hok1);
    [done..|].
  unfold Js.bind. rewrite Hrun.
  apply (deltas_ok ds s1 p cb ob1); [by rewrite Hcb1|done..].
Qed.

(** The snapshot and deltas of the scenarios of section 8, with one more
    level inserted and one replaced. *)
Lemma C1_snapshot_then_deltas_converge_witness :
  ∃ s' ob,
    handleAll
      [ snapshot "PF_XBTUSD"
          [ {| Pub.level_price := 100; Pub.level_qty := 2 |} ]
          [ {| Pub.level_price := 101; Pub.level_qty := 3 |} ];
        delta "PF_XBTUSD" "buy" 101 1;
        delta "PF_XBTUSD" "sell" 103 4;
        delta "PF_XBTUSD" "buy" 100 5 ]
      (listening "PF_XBTUSD" 7) = Js.Return () s'
    ∧ Pub.orderBooks s' !! "PF_XBTUSD" = Some ob ∧ book_ok ob.
Proof.
  apply (C1_snapshot_then_deltas_converge _ _ 7).
  - reflexivity.
  - apply NoDup_singleton.
  - apply NoDup_singleton.
  - repeat constructor.
Defined.

(** C1, as stated, fails: a snapshot may list a price twice; both levels
    stay in the book, which then has two entries at one price and is not
    strictly sorted. *)
Lemma C1_duplicate_price_in_snapshot :
  ∃ s' ob,
    handleAll
      [ snapshot "PF_XBTUSD"
          [ {| Pub.level_price := 100; Pub.level_qty := 1 |};
            {| Pub.level_price := 100; Pub.level_qty := 2 |} ] [] ]
      (listening "PF_XBTUSD" 7) = Js.Return () s'
    ∧ Pub.orderBooks s' !! "PF_XBTUSD" = Some ob
    ∧ bids ob = [ {| price := 100; amount := 1; total := 1 |};
                  {| price := 100; amount := 2; total := 3 |} ]
    ∧ ¬ unique_prices (bids ob) ∧ ¬ strictly_descending (bids ob).
Proof.
  eexists _, _. split_and!; [reflexivity|reflexivity|reflexivity| |].
  - simpl. unfold unique_prices. simpl. intros H.
    apply NoDup_cons in H as [H _]. apply H. left.
  - simpl. intros H. apply StronglySorted_inv in H as [_ H].
    apply Forall_cons in H as [H _]. simpl in H. lia.
Qed.

(** C2: the code at the failing input.  The book of the first scenario of
    section 8 holds bids at 100 only; a delta with quantity 0 for the
    absent bid price 99 takes the [else] branch of line 150 and pushes a
    level of amount 0, which the listener then receives. *)
Theorem C2_zero_quantity_for_absent_price_inserts_level :
  ∃ s0 s1 ob0 ob1,
    handleAll
      [ snapshot "PF_XBTUSD"
          [ {| Pub.level_price := 100; Pub.level_qty := 2 |} ]
          [ {| Pub.level_price := 101; Pub.level_qty := 3 |} ] ]
      (listening "PF_XBTUSD" 7) = Js.Return () s0
    ∧ Pub.orderBooks s0 !! "PF_XBTUSD" = Some ob0
    ∧ price <$> bids ob0 = [100%Z]
    ∧ Pub.handleOrderBookEvent (delta "PF_XBTUSD" "buy" 99 0) s0
      = Js.Return () s1
    ∧ Pub.orderBooks s1 !! "PF_XBTUSD" = Some ob1
    ∧ bids ob1 = [ {| price := 100; amount := 2; total := 2 |};
                   {| price := 99; amount := 0; total := 2 |} ]
    ∧ ob1 ≠ ob0
    ∧ last (Pub.invoked s1) = Some (7, ob1).
Proof.
  eexists _, _, _, _.
  split_and!; try reflexivity. discriminate.
Qed.




(** ** Malformed messages *)




(** ** Subscriptions *)

Lemma uniq_elem_of (l : list string) x : x ∈ Pub.uniq l ↔ x ∈ l.
Proof.
  induction l as [|y l IH]; simpl; [done|].
  rewrite !elem_of_cons, list_elem_of_filter, IH.
  destruct (decide (x = y)); intuition congruence.
Qed.

Lemma uniq_NoDup (l : list string) : NoDup (Pub.uniq l).
Proof.
  induction l as [|y l IH]; simpl; [constructor|].
  apply NoDup_cons. split.
  - rewrite list_elem_of_filter. intros [H _]. by apply H.
  - by apply NoDup_filter.
Qed.

(** [subscribe] changes nothing but the log of sent frames. *)
Lemma subscribe_sent s :
  Pub.subscribe s
  = match Pub.ws s with
    | Some _ => Pub.set_sent (Pub.sent s ++ subscribe_commands s) s
    | None => s
    end.
Proof.
  unfold Pub.subscribe, subscribe_commands.
  generalize (concat (Pub.topics s).*2) as ts. intros ts.
  generalize (Pub.uniq (Pub.feed <$> ts)) as fs. intros fs.
  destruct s as [a w c d e f g h snt j k]; simpl.
  destruct w as [r|].
  - revert snt. induction fs as [|x fs IH]; intros snt; simpl.
    + by rewrite app_nil_r.
    + case_bool_decide; simpl.
      * unfold Pub.send at 2. simpl. rewrite IH. simpl.
        by rewrite <- app_assoc.
      * apply IH.
  - induction fs as [|x fs IH]; simpl; [done|].
    by case_bool_decide.
Qed.

Lemma topics_get_set key v t :
  Pub.topics_get key (Pub.topics_set key v t) = Some v.
Proof.
  induction t as [|[k w] t IH]; simpl.
  - by rewrite String.eqb_refl.
  - destruct (String.eqb k key) eqn:E; simpl; by rewrite E.
Qed.

Lemma topics_get_elem_of key v t :
  Pub.topics_get key t = Some v → v ∈ t.*2.
Proof.
  induction t as [|[k w] t IH]; simpl; [done|].
  destruct (String.eqb k key).
  - intros [= ->]. left.
  - intros H. right. auto.
Qed.

Lemma elem_of_concat {A} (x : A) (l : list A) (ls : list (list A)) :
  x ∈ l → l ∈ ls → x ∈ concat ls.
Proof.
  intros Hx. induction 1 as [|? ? ? IH]; simpl; apply elem_of_app; auto.
Qed.

Lemma count_app {A} (P : A → Prop) `{∀ x, Decision (P x)} l k :
  count P (l ++ k) = count P l + count P k.
Proof. unfold count. by rewrite filter_app, length_app. Qed.

Lemma count_none {A} (P : A → Prop) `{∀ x, Decision (P x)} l :
  Forall (λ x, ¬ P x) l → count P l = 0.
Proof.
  unfold count. induction 1 as [|x l Hx Hl IH]; [done|].
  by rewrite filter_cons_False.
Qed.

Lemma count_all {A} (P : A → Prop) `{∀ x, Decision (P x)} l :
  Forall P l → count P l = length l.
Proof.
  unfold count. induction 1 as [|x l Hx Hl IH]; [done|].
  rewrite filter_cons_True by done. simpl. by rewrite IH.
Qed.

Lemma subscribe_commands_event s :
  Forall (λ c, Pub.event c = "subscribe") (subscribe_commands s).
Proof.
  unfold subscribe_commands. apply Forall_forall. intros c Hc.
  apply list_elem_of_omap in Hc as (f & _ & Hf).
  case_bool_decide; [|done]. by injection Hf as <-.
Qed.

(** Among the frames of one [subscribe], exactly one subscribes the book
    feed for a product that has a book topic. *)
Lemma subscribe_commands_book s p bk :
  Pub.topics_get "book" (Pub.topics s) = Some bk →
  book_topic p ∈ bk →
  count (subscribes_book p) (subscribe_commands s) = 1.
Proof.
  intros Hget Hin. unfold subscribe_commands.
  set (ts := concat (Pub.topics s).*2).
  assert (Hts : book_topic p ∈ ts).
  { apply (elem_of_concat _ bk); [done|]. by eapply topics_get_elem_of. }
  set (g := λ f : string, _ : option Pub.Command).
  assert (Hg : ∀ f c, g f = Some c → Pub.cmd_feed c = f).
  { intros f c. unfold g. case_bool_decide; [|done]. by intros [= <-]. }
  assert (Hbook : ∃ c, g "book" = Some c ∧ subscribes_book p c).
  { unfold g.
    assert (Hp : p ∈ Pub.product_id <$> filter (λ t, Pub.feed t = "book") ts).
    { apply list_elem_of_fmap. exists (book_topic p). split; [done|].
      by apply list_elem_of_filter. }
    rewrite bool_decide_true.
    - eexists. split; [done|]. by split_and!.
    - destruct (Pub.product_id <$> _); [by apply elem_of_nil in Hp|simpl; lia]. }
  assert (Hfs : "book" ∈ Pub.uniq (Pub.feed <$> ts)).
  { apply uniq_elem_of, list_elem_of_fmap. by exists (book_topic p). }
  pose proof (uniq_NoDup (Pub.feed <$> ts)) as Hnd.
  revert Hfs Hnd. generalize (Pub.uniq (Pub.feed <$> ts)) as fs.
  induction fs as [|f fs IH]; intros Hfs Hnd; [by apply elem_of_nil in Hfs|].
  apply NoDup_cons in Hnd as [Hf Hnd].
  change (f :: fs) with ([f] ++ fs). rewrite omap_app, count_app.
  assert (Hfeeds : ∀ l, "book" ∉ l →
            Forall (λ c, ¬ subscribes_book p c) (omap g l)).
  { intros l Hl. apply Forall_forall. intros c Hc (_ & Hfeed & _).
    apply list_elem_of_omap in Hc as (f' & Hf' & Hgf').
    apply Hg in Hgf'. congruence. }
  destruct (decide (f = "book")) as [->|Hne].
  - destruct Hbook as (c & Hc & HP).
    rewrite (count_none _ (omap g fs)) by auto.
    rewrite count_all; simpl; rewrite Hc; [done|by constructor].
  - apply elem_of_cons in Hfs as [?|Hfs]; [done|].
    rewrite (count_none _ (omap g [f])); [by apply IH|].
    apply Hfeeds. intros H. by apply list_elem_of_singleton in H.
Qed.

(** [listenOrderBook] for a product whose book topic exists: only the
    callback is stored. *)
Lemma listen_again s symbol cb i m bk :
  Pub.loaded_markets (Pub.store s) = true →
  list_find (λ m, Pub.market_symbol m = symbol) (Pub.markets (Pub.store s))
    = Some (i, m) →
  Pub.topics_get "book" (Pub.topics s) = Some bk →
  Pub.market_id m ∈ Pub.product_id <$> bk →
  Pub.listenOrderBook symbol cb s
  = Js.Return (Pub.Release (Pub.market_id m))
      (Pub.set_orderBookCallbacks
         (<[Pub.market_id m := cb]> (Pub.orderBookCallbacks s)) s).
Proof.
  intros Hl Hm Hbk Hin. unfold Pub.listenOrderBook.
  rewrite Hl, Hm, Hbk. simpl.
  apply list_elem_of_fmap in Hin as (t & Ht & Hin).
  destruct (list_find_elem_of (λ t, Pub.product_id t = Pub.market_id m) bk t)
    as [[j t'] ->]; done.
Qed.

(** [listenOrderBook] for a product without a book topic, on an open
    socket: the topic is pushed and [subscribe] runs. *)
Lemma listen_first s symbol cb i m bk :
  Pub.loaded_markets (Pub.store s) = true →
  list_find (λ m, Pub.market_symbol m = symbol) (Pub.markets (Pub.store s))
    = Some (i, m) →
  Pub.topics_get "book" (Pub.topics s) = Some bk →
  Pub.market_id m ∉ Pub.product_id <$> bk →
  Pub.isConnected s = true →
  let s1 :=
    Pub.set_topics
      (Pub.topics_set "book" (bk ++ [book_topic (Pub.market_id m)])
         (Pub.topics s)) s in
  Pub.listenOrderBook symbol cb s
  = Js.Return (Pub.Release (Pub.market_id m))
      (Pub.set_orderBookCallbacks
         (<[Pub.market_id m := cb]> (Pub.orderBookCallbacks s))
         (Pub.set_sent (Pub.sent s ++ subscribe_commands s1) s1)).
Proof.
  intros Hl Hm Hbk Hin Hconn s1. unfold Pub.listenOrderBook.
  rewrite Hl, Hm, Hbk. simpl.
  destruct (list_find _ bk) as [[j t]|] eqn:Hfind.
  { apply list_find_Some in Hfind as (Hj & Ht & _). exfalso. apply Hin.
    rewrite <- Ht. apply list_elem_of_fmap. exists t. split; [done|].
    by eapply list_elem_of_lookup_2. }
  fold (book_topic (Pub.market_id m)). fold s1.
  assert (Hc1 : Pub.isConnected s1 = true) by (by destruct s).
  rewrite Hc1, subscribe_sent.
  unfold Pub.isConnected in Hc1. destruct (Pub.ws s1) as [[]|] eqn:Hws; try done.
  by destruct s.
Qed.

Lemma acquire_again symbol i m bk cbs : ∀ s,
  Pub.loaded_markets (Pub.store s) = true →
  list_find (λ m, Pub.market_symbol m = symbol) (Pub.markets (Pub.store s))
    = Some (i, m) →
  Pub.topics_get "book" (Pub.topics s) = Some bk →
  Pub.market_id m ∈ Pub.product_id <$> bk →
  ∃ s', acquire symbol cbs s
        = Js.Return (replicate (length cbs) (Pub.Release (Pub.market_id m))) s'
    ∧ Pub.sent s' = Pub.sent s ∧ Pub.topics s' = Pub.topics s
    ∧ Pub.ws s' = Pub.ws s.
Proof.
  induction cbs as [|cb cbs IH]; intros s Hl Hm Hbk Hin; simpl; [eauto|].
  unfold Js.bind at 1. rewrite (listen_again s symbol cb i m bk) by done.
  set (s1 := Pub.set_orderBookCallbacks _ s).
  destruct (IH s1) as (s' & Hrun & Hsent & Htopics & Hws);
    [by destruct s..|].
  unfold Js.bind. rewrite Hrun. eexists. split; [done|].
  rewrite Hsent, Htopics, Hws. by destruct s.
Qed.

Lemma release_many p n : ∀ s bk,
  Pub.topics_get "book" (Pub.topics s) = Some bk →
  Pub.isConnected s = true →
  ∃ s', release (replicate n (Pub.Release p)) s = Js.Return () s'
    ∧ Pub.sent s' = Pub.sent s ++ replicate n (unsubscribe_command p).
Proof.
  induction n as [|n IH]; intros s bk Hbk Hconn; simpl.
  - eexists. by rewrite app_nil_r.
  - unfold Js.bind, Pub.callUnsubscribe. rewrite Hbk.
    set (s1 := Pub.set_orderBooks _ _).
    assert (Hc1 : Pub.isConnected s1 = true) by (by destruct s).
    rewrite Hc1. fold (unsubscribe_command p).
    set (s2 := Pub.send _ s1).
    assert (Hs2 : Pub.sent s2 = Pub.sent s ++ [unsubscribe_command p]
                  ∧ Pub.isConnected s2 = true
                  ∧ Pub.topics s2 = Pub.topics s1).
    { unfold s2, Pub.send. unfold Pub.isConnected in Hc1.
      destruct (Pub.ws s1) as [[]|] eqn:Hws; try done.
      destruct s; simpl in *. by rewrite Hws. }
    destruct Hs2 as (Hsent2 & Hc2 & Ht2).
    destruct (IH s2 (filter (λ t, Pub.product_id t ≠ p) bk)) as (s' & Hrun & Hsent);
      [|done|].
    { rewrite Ht2. destruct s; simpl. apply topics_get_set. }
    exists s'. split; [done|].
    rewrite Hsent, Hsent2, <- app_assoc. done.
Qed.

(** C3, as amended: for every [N ≥ 1] and every symbol of a loaded market
    that has no book topic yet, on a connected session [N] calls of
    [listenOrderBook] followed by the [N] returned unsubscribe functions
    send exactly one subscribe command that names the product under the
    book feed, and [N] unsubscribe commands for it, one for each function
    called: listeners are not counted. *)
Theorem C3_one_subscribe_and_one_unsubscribe_per_release
    s symbol i m bk cbs :
  Pub.loaded_markets (Pub.store s) = true →
  list_find (λ m, Pub.market_symbol m = symbol) (Pub.markets (Pub.store s))
    = Some (i, m) →
  Pub.topics_get "book" (Pub.topics s) = Some bk →
  Pub.market_id m ∉ Pub.product_id <$> bk →
  Pub.isConnected s = true →
  1 ≤ length cbs →
  ∃ s' cmds,
    Js.bind (acquire symbol cbs) release s = Js.Return () s'
    ∧ Pub.sent s' = Pub.sent s ++ cmds
    ∧ count (subscribes_book (Pub.market_id m)) cmds = 1
    ∧ count (unsubscribes_book (Pub.market_id m)) cmds = length cbs.
Proof.
  intros Hl Hm Hbk Hin Hconn Hlen.
  destruct cbs as [|cb cbs]; [simpl in Hlen; lia|]. clear Hlen.
  set (p := Pub.market_id m) in *.
  unfold Js.bind at 1. simpl. unfold Js.bind at 1.
  rewrite (listen_first s symbol cb i m bk) by done. fold p.
  set (s1 := Pub.set_topics _ s).
  set (s2 := Pub.set_orderBookCallbacks _ _).
  assert (Hbk1 : Pub.topics_get "book" (Pub.topics s1) = Some (bk ++ [book_topic p])).
  { destruct s; simpl. apply topics_get_set. }
  assert (Hin1 : p ∈ Pub.product_id <$> bk ++ [book_topic p]).
  { rewrite fmap_app. apply elem_of_app. right. simpl. left. }
  destruct (acquire_again symbol i m (bk ++ [book_topic p]) cbs s2)
    as (s3 & Hrun & Hsent3 & Htopics3 & Hws3);
    [by destruct s..|].
  unfold Js.bind at 1. rewrite Hrun. fold p.
  destruct (release_many p (S (length cbs)) s3 (bk ++ [book_topic p]))
    as (s4 & Hrel & Hsent4).
  { rewrite Htopics3. by destruct s. }
  { unfold Pub.isConnected in *. rewrite Hws3. by destruct s. }
  change (release _ s3) with (release (replicate (S (length cbs)) (Pub.Release p)) s3).
  rewrite Hrel. eexists _, _. split; [done|].
  assert (Hsent2 : Pub.sent s2 = Pub.sent s ++ subscribe_commands s1)
    by (by destruct s).
  split_and!.
  - rewrite Hsent4, Hsent3, Hsent2, <- app_assoc. done.
  - rewrite count_app.
    rewrite (subscribe_commands_book s1 p (bk ++ [book_topic p])); [|done|].
    + rewrite count_none; [done|].
      apply Forall_forall. intros c Hc%elem_of_replicate_inv [? _]. by subst c.
    + apply elem_of_app. right. left.
  - rewrite count_app, count_none, count_all. 
    + by rewrite length_replicate.
    + apply Forall_replicate. split_and!; [done..|left].
    + eapply Forall_impl; [apply subscribe_commands_event|].
      intros c Hc [Hev _]. congruence.
Qed.

Lemma C3_one_subscribe_and_one_unsubscribe_per_release_witness :
  ∃ s' cmds,
    Js.bind (acquire "XBTUSD" [7; 8; 9]) release connected = Js.Return () s'
    ∧ Pub.sent s' = Pub.sent connected ++ cmds
    ∧ count (subscribes_book "PF_XBTUSD") cmds = 1
    ∧ count (unsubscribes_book "PF_XBTUSD") cmds = 3.
Proof.
  apply (C3_one_subscribe_and_one_unsubscribe_per_release
           connected "XBTUSD" 0 {| Pub.market_id := "PF_XBTUSD";
                                   Pub.market_symbol := "XBTUSD" |} []).
  - reflexivity.
  - reflexivity.
  - reflexivity.
  - simpl. apply not_elem_of_nil.
  - reflexivity.
  - simpl. lia.
Defined.

(** C3, as stated, fails: with two listeners on a connected session, each
    of the two returned functions sends an unsubscribe command. *)
Lemma C3_two_listeners_send_two_unsubscribes :
  ∃ s',
    Js.bind (acquire "XBTUSD" [7; 8]) release connected = Js.Return () s'
    ∧ drop (length (Pub.sent connected)) (Pub.sent s')
      = [ {| Pub.event := "subscribe"; Pub.cmd_feed := "ticker";
             Pub.product_ids := ["PF_XBTUSD"] |};
          {| Pub.event := "subscribe"; Pub.cmd_feed := "book";
             Pub.product_ids := ["PF_XBTUSD"] |};
          unsubscribe_command "PF_XBTUSD";
          unsubscribe_command "PF_XBTUSD" ]
    ∧ count (unsubscribes_book "PF_XBTUSD")
        (drop (length (Pub.sent connected)) (Pub.sent s')) = 2.
Proof. eexists. split_and!; reflexivity. Qed.

(** An order-book event that is handled to the end invokes the callback
    registered for its product, once, and no other. *)
Lemma handle_invokes_registered data s s' cb :
  Pub.orderBookCallbacks s !! Pub.data_product_id data = Some cb →
  Pub.handleOrderBookEvent data s = Js.Return () s' →
  ∃ ob, Pub.invoked s' = Pub.invoked s ++ [(cb, ob)].
Proof.
  intros Hcb. unfold Pub.handleOrderBookEvent. rewrite Hcb.
  destruct (Pub.orderBooks s !! _) as [ob|];
    repeat case_bool_decide;
    destruct (Pub.data_bids data), (Pub.data_asks data); try done;
    intros [= <-]; eexists; by destruct s.
Qed.











(** ** Reconnection *)

(** C4: the code at the failing input.  A listener registers the book
    topic of PF_XBTUSD on a connected session; the transport closes and the
    session reconnects.  [connectAndSubscribe] has reset [topics.book] to
    the empty array (line 36), so the [subscribe] of the next [onOpen]
    sends the ticker feed only, while the callback is still registered. *)
Theorem C4_reconnect_forgets_book_topics :
  let s0 := Pub.run [Pub.Listen "XBTUSD" 7] connected in
  let s1 := Pub.run [Pub.WsClose; Pub.WsOpen] s0 in
  Pub.topics_get "book" (Pub.topics s0) = Some [book_topic "PF_XBTUSD"]
  ∧ Pub.orderBookCallbacks s0 !! "PF_XBTUSD" = Some 7
  ∧ Pub.isConnected s1 = true
  ∧ Pub.sockets s1 = 2
  ∧ Pub.orderBookCallbacks s1 !! "PF_XBTUSD" = Some 7
  ∧ Pub.topics_get "book" (Pub.topics s1) = Some []
  ∧ drop (length (Pub.sent s0)) (Pub.sent s1)
    = [ {| Pub.event := "subscribe"; Pub.cmd_feed := "ticker";
           Pub.product_ids := ["PF_XBTUSD"] |} ]
  ∧ count (subscribes_book "PF_XBTUSD")
      (drop (length (Pub.sent s0)) (Pub.sent s1)) = 0.
Proof. split_and!; reflexivity. Qed.

(** ** Retrying until the markets are loaded *)

(** C6: the code at the failing input.  [listenOrderBook] is called before
    the markets are loaded and schedules timer 0.  The timer fires with the
    markets still not loaded: the retry schedules timer 1, whose id is
    known to the inner call only.  The function returned by the first call
    clears timer 0, which has fired, so timer 1 stays pending.  Once the
    markets are loaded it fires, registers the callback, and the next
    snapshot invokes it. *)
Theorem C6_retry_timer_survives_unsubscribe :
  ∃ s1 s2 s3 s4 ob,
    Pub.listenOrderBook "XBTUSD" 7 (Pub.initial unloaded_store)
      = Js.Return (Pub.ClearRetry 0) s1
    ∧ Pub.timer_id <$> Pub.timers s1 = [0]
    ∧ Pub.fireTimer 0 s1 = Js.Return () s2
    ∧ Pub.timer_id <$> Pub.timers s2 = [1]
    ∧ Pub.callUnsubscribe (Pub.ClearRetry 0) s2 = Js.Return () s3
    ∧ Pub.timers s3
      = [ {| Pub.timer_id := 1; Pub.timer_symbol := "XBTUSD";
             Pub.timer_callback := 7 |} ]
    ∧ s4 = Pub.run
             [ Pub.MarketsLoaded one_market; Pub.Start; Pub.WsOpen;
               Pub.TimerFires 1;
               Pub.WsMessage
                 (Some (snapshot "PF_XBTUSD"
                          [ {| Pub.level_price := 100; Pub.level_qty := 2 |} ]
                          [])) ] s3
    ∧ Pub.orderBookCallbacks s4 !! "PF_XBTUSD" = Some 7
    ∧ Pub.invoked s4 = [(7, ob)].
Proof. eexists _, _, _, _, _. split_and!; reflexivity. Qed.

(** ** The heartbeat of the private session *)

Section Heartbeat.
Context `{Platform}.
Variables (key secret : string).

Lemma priv_send_frame f s :
  Priv.sockets (Priv.send f s) = Priv.sockets s
  ∧ Priv.ws (Priv.send f s) = Priv.ws s
  ∧ Priv.timers (Priv.send f s) = Priv.timers s
  ∧ Priv.isDisposed (Priv.send f s) = Priv.isDisposed s
  ∧ Priv.signedChallenge (Priv.send f s) = Priv.signedChallenge s
  ∧ pings (Priv.sent (Priv.send f s)) ≤ S (pings (Priv.sent s))
  ∧ (f ≠ Priv.Ping →
     pings (Priv.sent (Priv.send f s)) = pings (Priv.sent s)).
Proof.
  unfold Priv.send. destruct s as [a [w|] c d e g h i j snt k l]; simpl.
  - unfold pings. rewrite count_app. unfold count.
    destruct (decide (f = Priv.Ping)) as [Hf|Hf].
    + rewrite (filter_cons_True _ f) by done. simpl.
      split_and!; try done; lia.
    + rewrite (filter_cons_False _ f) by done. simpl.
      split_and!; try done; lia.
  - split_and!; try done. lia.
Qed.

Lemma ping_frame now s :
  Priv.sockets (Priv.ping now s) = Priv.sockets s
  ∧ Priv.ws (Priv.ping now s) = Priv.ws s
  ∧ Priv.timers (Priv.ping now s) = Priv.timers s
  ∧ pings (Priv.sent (Priv.ping now s)) ≤ S (pings (Priv.sent s)).
Proof.
  unfold Priv.ping. destruct (Priv.isDisposed s) eqn:Hd.
  - split_and!; try done. lia.
  - destruct (priv_send_frame Priv.Ping (Priv.set_pingAt now s))
      as (Hso & Hws & Ht & _ & _ & Hp & _).
    rewrite Hso, Hws, Ht.
    replace (Priv.sent (Priv.set_pingAt now s)) with (Priv.sent s) in Hp
      by (by destruct s).
    split_and!; by destruct s.
Qed.

Lemma sendSubscribeRequest_frame s :
  Priv.sockets (Priv.sendSubscribeRequest key s) = Priv.sockets s
  ∧ Priv.ws (Priv.sendSubscribeRequest key s) = Priv.ws s
  ∧ Priv.timers (Priv.sendSubscribeRequest key s) = Priv.timers s
  ∧ pings (Priv.sent (Priv.sendSubscribeRequest key s)) = pings (Priv.sent s).
Proof.
  unfold Priv.sendSubscribeRequest.
  destruct (Priv.challenge s) as [c|]; [|done].
  case_bool_decide as Hc; [|done]. clear Hc.
  generalize ["open_orders"; "open_positions"; "balances"]. intros feeds.
  revert s. induction feeds as [|feed feeds IH]; intros s; simpl; [done|].
  destruct (IH (Priv.send (Priv.Subscribe feed key c (Priv.signedChallenge s)) s))
    as (-> & -> & -> & ->).
  destruct (priv_send_frame
              (Priv.Subscribe feed key c (Priv.signedChallenge s)) s)
    as (-> & -> & -> & _ & _ & _ & ->); done.
Qed.

Lemma priv_send_timers f s :
  Priv.next_timer (Priv.send f s) = Priv.next_timer s
  ∧ Priv.pingTimeoutId (Priv.send f s) = Priv.pingTimeoutId s.
Proof. unfold Priv.send. by destruct s as [a [w|] c d e g h i j snt k l]. Qed.

Lemma ping_timers now s :
  Priv.next_timer (Priv.ping now s) = Priv.next_timer s
  ∧ Priv.pingTimeoutId (Priv.ping now s) = Priv.pingTimeoutId s.
Proof.
  unfold Priv.ping. destruct (Priv.isDisposed s); [done|].
  destruct (priv_send_timers Priv.Ping (Priv.set_pingAt now s)) as [-> ->].
  by destruct s.
Qed.

Lemma sendSubscribeRequest_timers s :
  Priv.next_timer (Priv.sendSubscribeRequest key s) = Priv.next_timer s
  ∧ Priv.pingTimeoutId (Priv.sendSubscribeRequest key s)
    = Priv.pingTimeoutId s.
Proof.
  unfold Priv.sendSubscribeRequest.
  destruct (Priv.challenge s) as [c|]; [|done].
  case_bool_decide as Hc; [|done]. clear Hc.
  generalize ["open_orders"; "open_positions"; "balances"]. intros feeds.
  revert s. induction feeds as [|feed feeds IH]; intros s; simpl; [done|].
  destruct (IH (Priv.send (Priv.Subscribe feed key c (Priv.signedChallenge s)) s))
    as (-> & ->).
  apply priv_send_timers.
Qed.

(** A pong keeps the socket. *)
Lemma handlePongEvent_frame now s :
  Priv.sockets (Priv.handlePongEvent now s) = Priv.sockets s
  ∧ Priv.ws (Priv.handlePongEvent now s) = Priv.ws s.
Proof.
  unfold Priv.handlePongEvent.
  destruct s as [a w c [t|] e g h i j snt k l]; by simpl.
Qed.

(** An event without pong or transport event keeps the socket, creates
    no timer, and pings only by consuming a timer. *)
Lemma quiet_step e s :
  quiet e →
  let s' := Js.final (Priv.step key secret e s) in
  Priv.sockets s' = Priv.sockets s
  ∧ Priv.ws s' = Priv.ws s
  ∧ Priv.next_timer s' = Priv.next_timer s
  ∧ Priv.pingTimeoutId s' = Priv.pingTimeoutId s
  ∧ Priv.timers s' `sublist_of` Priv.timers s
  ∧ pings (Priv.sent s') + length (Priv.timers s')
    ≤ pings (Priv.sent s) + length (Priv.timers s).
Proof.
  destruct e as [|now|now parsed| |now tid]; simpl; try done.
  - intros Hq. unfold Priv.onMessage. rewrite Hq.
    destruct (Priv.is_event parsed "challenge").
    { destruct (parsed ≫= Priv.parsed_message) as [c|]; simpl.
      - destruct (sendSubscribeRequest_frame
                    (Priv.set_signedChallenge (Priv.signChallenge secret c)
                       (Priv.set_challenge (Some c) s)))
          as (-> & -> & -> & ->).
        destruct (sendSubscribeRequest_timers
                    (Priv.set_signedChallenge (Priv.signChallenge secret c)
                       (Priv.set_challenge (Some c) s)))
          as (-> & ->).
        by destruct s.
      - by destruct s. }
    destruct (Priv.is_event parsed "subscribed").
    { simpl. case_bool_decide; by destruct s. }
    repeat (match goal with
            | |- context [if ?b then _ else _] => destruct b
            end; [by destruct s|]).
    done.
  - intros _. unfold Priv.fireTimer. case_bool_decide as Hin; simpl; [|done].
    set (s1 := Priv.set_timers _ s).
    destruct (ping_frame now s1) as (-> & -> & -> & Hp).
    destruct (ping_timers now s1) as (-> & ->).
    assert (Ht1 : Priv.timers s1 = filter (λ t, t ≠ tid) (Priv.timers s))
      by (by destruct s).
    assert (Hlen : length (Priv.timers s1) < length (Priv.timers s)).
    { rewrite Ht1.
      clear -Hin. induction (Priv.timers s) as [|x l IH].
      - by apply elem_of_nil in Hin.
      - destruct (decide (x = tid)) as [->|Hne].
        + rewrite filter_cons_False by (intros Hx; by apply Hx).
          pose proof (length_filter (λ t, t ≠ tid) l). simpl. lia.
        + rewrite filter_cons_True by done.
          apply elem_of_cons in Hin as [?|Hin]; [congruence|].
          simpl. specialize (IH Hin). lia. }
    replace (Priv.sent s1) with (Priv.sent s) in Hp by (by destruct s).
    split_and!; [by destruct s..|rewrite Ht1; apply sublist_filter|lia].
Qed.

(** An event other than a close of the transport and a call of
    [connectAndSubscribe] creates no socket and drops none. *)
Lemma no_close_step e s :
  no_close e →
  let s' := Js.final (Priv.step key secret e s) in
  Priv.sockets s' = Priv.sockets s
  ∧ (Priv.ws s' = None ↔ Priv.ws s = None).
Proof.
  destruct e as [|now|now parsed| |now tid]; simpl; try done; intros _.
  - destruct (Priv.ws s) as [r|] eqn:Hws; simpl; [|by rewrite Hws].
    unfold Priv.onOpen.
    destruct (Priv.isDisposed _); [by destruct s|].
    destruct (ping_frame now
                (Priv.requestChallenge key (Priv.set_ws (Some Priv.OPEN) s)))
      as (-> & -> & _).
    unfold Priv.requestChallenge.
    destruct (priv_send_frame (Priv.Challenge key)
                (Priv.set_ws (Some Priv.OPEN) s)) as (-> & -> & _).
    by destruct s.
  - destruct (Priv.is_pong parsed) eqn:Hpong.
    + unfold Priv.onMessage. rewrite Hpong. simpl.
      by destruct (handlePongEvent_frame now s) as (-> & ->).
    + destruct (quiet_step (Priv.WsMessage now parsed) s Hpong)
        as (Hso & Hws & _).
      simpl in Hso, Hws. by rewrite Hso, Hws.
  - destruct (quiet_step (Priv.TimerFires now tid) s I) as (Hso & Hws & _).
    simpl in Hso, Hws. by rewrite Hso, Hws.
Qed.

(** C7, as amended: on the private session nothing watches for a missing
    pong, and only a close of the transport (or a call of
    [connectAndSubscribe]) creates a socket.  No other event, be it an
    open, a timer or a message, a pong included, creates or drops one.
    As long as, besides, no pong arrives, whatever time passes after a
    ping, the timers that fire and the messages that arrive leave the
    socket in the state it was in; no timer is created: the pending
    timers are among those pending before, under the ids they had, and
    the next timer id is unchanged; and a further ping is sent only by
    consuming a pending timer, which an earlier pong had scheduled. *)
Theorem C7_missing_pong_forces_no_reconnect es s :
  Forall no_close es →
  let s' := Priv.run key secret es s in
  Priv.sockets s' = Priv.sockets s
  ∧ (Priv.ws s' = None ↔ Priv.ws s = None)
  ∧ (Forall quiet es →
     Priv.ws s' = Priv.ws s
     ∧ Priv.next_timer s' = Priv.next_timer s
     ∧ Priv.pingTimeoutId s' = Priv.pingTimeoutId s
     ∧ Priv.timers s' `sublist_of` Priv.timers s
     ∧ pings (Priv.sent s') + length (Priv.timers s')
       ≤ pings (Priv.sent s) + length (Priv.timers s)).
Proof.
  intros Hes. revert s. induction Hes as [|e es He Hes IH]; intros s; simpl.
  - split_and!; [done..|]. intros _. split_and!; [done..|lia].
  - destruct (no_close_step e s He) as (Hso & Hws).
    destruct (IH (Js.final (Priv.step key secret e s)))
      as (Hso' & Hws' & Hq').
    unfold Priv.run in *. rewrite Hso', Hws', Hso, Hws.
    split_and!; [done..|].
    intros [Hq Hqs]%Forall_cons.
    destruct (quiet_step e s Hq) as (_ & Hw & Hn & Hi & Hsub & Hp).
    destruct (Hq' Hqs) as (Hw' & Hn' & Hi' & Hsub' & Hp').
    rewrite Hw', Hn', Hi', Hw, Hn, Hi.
    split_and!; [done..|by etrans|lia].
Qed.
End Heartbeat.

Lemma C7_missing_pong_forces_no_reconnect_witness :
  let s := @Priv.run example_platform "key" "c2VjcmV0"
             [ Priv.Start; Priv.WsOpen 0;
               Priv.WsMessage 10 (Some Extra.pong_message) ] Priv.initial in
  let s' := @Priv.run example_platform "key" "c2VjcmV0"
              [ Priv.WsMessage 30000 (Some balances_message);
                Priv.TimerFires 10010 0 ] s in
  Priv.sockets s' = Priv.sockets s
  ∧ (Priv.ws s' = None ↔ Priv.ws s = None)
  ∧ Priv.ws s' = Priv.ws s
  ∧ Priv.next_timer s' = Priv.next_timer s
  ∧ Priv.pingTimeoutId s' = Priv.pingTimeoutId s
  ∧ Priv.timers s' `sublist_of` Priv.timers s
  ∧ pings (Priv.sent s') + length (Priv.timers s')
    ≤ pings (Priv.sent s) + length (Priv.timers s).
Proof.
  intros s s'.
  destruct (@C7_missing_pong_forces_no_reconnect example_platform "key"
              "c2VjcmV0"
              [ Priv.WsMessage 30000 (Some balances_message);
                Priv.TimerFires 10010 0 ] s) as (H1 & H2 & H3).
  - repeat constructor.
  - split; [exact H1|]. split; [exact H2|]. apply H3. repeat constructor.
Defined.

(** C7, as stated, fails: the session opens and pings at time 0; no pong
    ever comes.  A minute later one ping has been sent, no timer is
    pending, and the session is still on its first socket, open. *)
Lemma C7_no_pong_and_no_reconnect :
  let s := @Priv.run example_platform "key" "c2VjcmV0"
             [ Priv.Start; Priv.WsOpen 0;
               Priv.WsMessage 30000 (Some balances_message);
               Priv.TimerFires 60000 0 ] Priv.initial in
  Priv.sent s = [Priv.Challenge "key"; Priv.Ping]
  ∧ Priv.pingAt s = 0%Z
  ∧ Priv.timers s = []
  ∧ Priv.pingTimeoutId s = None
  ∧ Priv.ws s = Some Priv.OPEN
  ∧ Priv.sockets s = 1.
Proof. split_and!; reflexivity. Qed.

(** ** The request signer *)

Lemma toString_read n :
  Z.of_int <$> NilZero.int_of_string (Api.toString n) = Some n.
Proof.
  unfold Api.toString. rewrite NilZero.isi.
  - simpl. f_equal. apply DecimalZ.of_to.
  - destruct n; simpl; try discriminate.
    intros [= Hp]. by apply Unsigned.to_uint_nonnil in Hp.
  - destruct n; simpl; try discriminate.
    intros [= Hp]. by apply Unsigned.to_uint_nonnil in Hp.
Qed.

Section Signer.
Context `{Platform}.
Variable options : Api.ExchangeOptions.

(** The nonce of a signed request is the clock reading in milliseconds,
    times 1000. *)
Lemma interceptor_nonce now config :
  Api.is_public config = false →
  Api.nonce_of (Api.interceptor options now config) = Some (now * 1000)%Z.
Proof.
  intros Hpub. unfold Api.interceptor. rewrite Hpub.
  match goal with
  | |- context [match ?x with (_, _) => _ end] => destruct x as [[[m ct] d] p]
  end.
  unfold Api.nonce_of. simpl.
  rewrite lookup_insert_ne by done. rewrite lookup_insert_ne by done.
  rewrite lookup_insert_eq. simpl. apply toString_read.
Qed.

(** C5, as amended: the nonce that the signer attaches is the wall clock
    in milliseconds times 1000, read when the request is signed.  So for
    every sequence of authenticated requests signed at strictly
    increasing clock readings, the nonces are strictly increasing; the
    signer keeps no counter of its own. *)
Theorem C5_nonces_increase_with_the_clock (requests : list (Z * Api.Config)) :
  Forall (λ r, Api.is_public r.2 = false) requests →
  StronglySorted Z.lt (fst <$> requests) →
  ∃ nonces,
    Api.nonce_of <$> Api.sign_all options requests = Some <$> nonces
    ∧ nonces = (λ r, r.1 * 1000)%Z <$> requests
    ∧ StronglySorted Z.lt nonces.
Proof.
  intros Hsigned Hclock. eexists. split_and!; [|reflexivity|].
  - unfold Api.sign_all. rewrite <- !list_fmap_compose.
    apply Forall_fmap_ext_1.
    eapply Forall_impl; [exact Hsigned|].
    intros r Hr. simpl. by apply interceptor_nonce.
  - clear Hsigned. induction requests as [|r rs IH]; [constructor|].
    rewrite fmap_cons in Hclock.
    apply StronglySorted_inv in Hclock as [Hrs Hr].
    rewrite fmap_cons. constructor; [auto|].
    rewrite Forall_fmap in Hr. rewrite Forall_fmap.
    eapply Forall_impl; [exact Hr|]. intros x Hx. simpl in *. lia.
Qed.
End Signer.

Lemma C5_nonces_increase_with_the_clock_witness :
  ∃ nonces,
    Api.nonce_of
      <$> @Api.sign_all example_platform example_options
            [ (1700000000000%Z, open_orders_request);
              (1700000000001%Z, open_orders_request);
              (1700000000007%Z, open_orders_request) ]
    = Some <$> nonces
    ∧ nonces = [ 1700000000000000%Z; 1700000000001000%Z; 1700000000007000%Z ]
    ∧ StronglySorted Z.lt nonces.
Proof.
  apply (@C5_nonces_increase_with_the_clock example_platform example_options).
  - repeat constructor.
  - repeat constructor; simpl; lia.
Defined.

(** C5, as stated, fails: two authenticated requests signed within the
    same millisecond carry the same nonce. *)
Lemma C5_same_millisecond_same_nonce :
  let first :=
    @Api.interceptor example_platform example_options
      1700000000000%Z open_orders_request in
  let second :=
    @Api.interceptor example_platform example_options
      1700000000000%Z open_orders_request in
  Api.headers first !! "Nonce" = Some "1700000000000000"
  ∧ Api.headers second !! "Nonce" = Some "1700000000000000"
  ∧ Api.nonce_of first = Some 1700000000000000%Z
  ∧ Api.nonce_of second = Api.nonce_of first
  ∧ ¬ (∃ n1 n2, Api.nonce_of first = Some n1 ∧ Api.nonce_of second = Some n2
         ∧ (n1 < n2)%Z).
Proof.
  split_and!; try (vm_compute; reflexivity).
  intros (n1 & n2 & H1 & H2 & Hlt).
  vm_compute in H1, H2. injection H1 as <-. injection H2 as <-. lia.
Qed.

(** * Further properties of the code *)

Import Extra.

(** ** kraken.utils.ts *)

Lemma prefix_append a r : String.prefix a (a +:+ r) = true.
Proof.
  induction a as [|c a IH]; simpl; [by destruct r|].
  by destruct (ascii_dec c c).
Qed.

Lemma prefix_split a : ∀ p, String.prefix a p = true → ∃ r, p = a +:+ r.
Proof.
  induction a as [|c a IH]; intros p; simpl.
  - intros _. by exists p.
  - destruct p as [|d p]; simpl; [done|].
    destruct (ascii_dec c d) as [->|]; [|done].
    intros [r ->]%IH. by exists r.
Qed.

Lemma string_drop_append a r :
  KrakenUtils.string_drop (String.length a) (a +:+ r) = r.
Proof. induction a as [|c a IH]; simpl; [by destruct r|done]. Qed.

Lemma normalize_after_reverse s :
  KrakenUtils.normalizeSymbol (Some (KrakenUtils.reverseSymbol s)) = s.
Proof.
  unfold KrakenUtils.normalizeSymbol, KrakenUtils.reverseSymbol.
  rewrite bool_decide_false by done.
  change ("PF_" +:+ s) with (String "P" (String "F" (String "_" s))).
  cbn. by destruct s.
Qed.

(** X1: stripping the prefix that [reverseSymbol] adds gives the symbol
    back, for every symbol, and the text between is never empty. *)
Theorem normalizeSymbol_reverseSymbol s :
  KrakenUtils.normalizeSymbol (Some (KrakenUtils.reverseSymbol s)) = s
  ∧ KrakenUtils.reverseSymbol s ≠ "".
Proof. split; [apply normalize_after_reverse|done]. Qed.

(** X2: adding the prefix back after [normalizeSymbol] gives the product id
    back exactly when the id starts with [PF_]; the first [PF_] is removed
    wherever it stands. *)
Theorem reverseSymbol_normalizeSymbol s :
  KrakenUtils.reverseSymbol (KrakenUtils.normalizeSymbol (Some s)) = s
  ↔ String.prefix "PF_" s = true.
Proof.
  split.
  - intros <-. apply (prefix_append "PF_").
  - intros [r ->]%prefix_split. f_equal. apply normalize_after_reverse.
Qed.

(** ** kraken.api.ts *)

Lemma substring_all s : String.substring 0 (String.length s) s = s.
Proof. induction s as [|c s IH]; simpl; [done|]. by rewrite IH. Qed.

Lemma substring_after a r :
  String.substring (String.length a)
    (String.length (a +:+ r) - String.length a) (a +:+ r) = r.
Proof.
  induction a as [|c a IH]; simpl.
  - rewrite Nat.sub_0_r. apply substring_all.
  - apply IH.
Qed.

Section SignerDetails.
Context `{Platform}.
Variable options : Api.ExchangeOptions.

(** The path that enters the signed message: the path of the URL, without
    a leading [/derivatives]. *)
Lemma signed_path_cases (pathname : string) :
  let path :=
    if String.prefix "/derivatives" pathname then
      String.substring 12 (String.length pathname - 12) pathname
    else pathname in
  (String.prefix "/derivatives" pathname = false ∧ path = pathname)
  ∨ pathname = "/derivatives" +:+ path.
Proof.
  simpl. destruct (String.prefix _ pathname) eqn:Hp; [|by left].
  right. apply prefix_split in Hp as [r ->].
  change 12 with (String.length "/derivatives").
  by rewrite (substring_after "/derivatives" r).
Qed.

Lemma interceptor_nonce_header now config :
  Api.is_public config = false →
  Api.headers (Api.interceptor options now config) !! "Nonce"
  = Some (Api.toString (now * 1000)).
Proof.
  intros Hpub. unfold Api.interceptor. rewrite Hpub.
  match goal with
  | |- context [match ?x with (_, _) => _ end] => destruct x as [[[m ct] d] p]
  end.
  simpl. rewrite !lookup_insert_ne by done. apply lookup_insert_eq.
Qed.

(** X3: a request whose URL starts with one of the public endpoints
    (instruments, tickers, charts) passes the interceptor unchanged: no
    nonce, key or signature is attached. *)
Theorem public_endpoint_is_not_signed now config e rest :
  e ∈ Api.PUBLIC_ENDPOINTS →
  Api.url config = Some (e +:+ rest) →
  Api.interceptor options now config = config.
Proof.
  intros He Hurl. unfold Api.interceptor.
  replace (Api.is_public config) with true; [done|].
  symmetry. unfold Api.is_public. apply existsb_exists.
  exists e. split; [by apply list_elem_of_In|].
  rewrite Hurl. apply prefix_append.
Qed.

Lemma authenticated_not_public config e rest :
  e ∈ Endpoints.authenticated →
  Api.url config = Some (e +:+ rest) →
  Api.is_public config = false.
Proof.
  intros He Hurl. unfold Api.is_public. rewrite Hurl.
  unfold Endpoints.authenticated in He.
  repeat (apply elem_of_cons in He as [->|He]; [reflexivity|]).
  by apply elem_of_nil in He.
Qed.

(** X4: a request whose URL starts with one of the other endpoints
    (accounts, positions, orders, order placement and cancellation) is
    always signed: it leaves the interceptor with the API key, the nonce
    of the clock reading, a signature and a content type, and with the
    timeout [recvWindow], 5000 ms when the options give none.  A header
    whose name, of ASCII characters, differs from these four in more than
    letter case is kept. *)
Theorem authenticated_endpoint_is_signed now config e rest :
  e ∈ Endpoints.authenticated →
  Api.url config = Some (e +:+ rest) →
  let signed := Api.interceptor options now config in
  Api.headers signed !! "APIKey" = Some (Api.key options)
  ∧ Api.headers signed !! "Nonce" = Some (Api.toString (now * 1000))
  ∧ is_Some (Api.headers signed !! "Authent")
  ∧ (Api.headers signed !! "Content-Type" = Some "application/json"
     ∨ Api.headers signed !! "Content-Type"
       = Some "application/x-www-form-urlencoded")
  ∧ Api.timeout signed
    = Some (default Api.RECV_WINDOW (Api.recvWindow options))
  ∧ Api.url signed = Api.url config
  ∧ ∀ k, Api.is_ascii k = true →
      Api.toLowerCase k ∉ Api.toLowerCase <$> signing_headers →
      Api.headers signed !! k = Api.headers config !! k.
Proof.
  intros He Hurl signed.
  pose proof (authenticated_not_public config e rest He Hurl) as Hpub.
  split; [|split; [by apply interceptor_nonce_header|]].
  all: unfold signed, Api.interceptor; rewrite Hpub.
  all: match goal with
       | |- context [match ?x with (_, _) => _ end] =>
           assert (Hct : x.1.1.2 = "application/json"
                         ∨ x.1.1.2 = "application/x-www-form-urlencoded")
             by (destruct (Api.data config) as [[t|o]|];
                 repeat case_bool_decide;
                 destruct (Api.params config); simpl; auto);
           destruct x as [[[m ct] d] p]
       end; simpl in *.
  - rewrite !lookup_insert_ne by done. apply lookup_insert_eq.
  - split_and!.
    + rewrite lookup_insert_ne by done. rewrite lookup_insert_eq. eauto.
    + rewrite lookup_insert_eq. destruct Hct as [-> | ->]; auto.
    + done.
    + done.
    + intros k _ Hk. unfold signing_headers in Hk.
      rewrite !lookup_insert_ne; [done|intros <-; apply Hk..];
        simpl; rewrite !elem_of_cons; auto 10.
Qed.

(** X5: two signed requests carry the same [Nonce] header exactly when
    they were signed at the same millisecond of the clock. *)
Theorem same_nonce_iff_same_millisecond now1 now2 config1 config2 :
  Api.is_public config1 = false →
  Api.is_public config2 = false →
  Api.headers (Api.interceptor options now1 config1) !! "Nonce"
  = Api.headers (Api.interceptor options now2 config2) !! "Nonce"
  ↔ now1 = now2.
Proof.
  intros H1 H2. rewrite !interceptor_nonce_header by done. split.
  - intros [= Heq].
    pose proof (toString_read (now1 * 1000)) as Hr1.
    pose proof (toString_read (now2 * 1000)) as Hr2.
    rewrite Heq, Hr2 in Hr1. injection Hr1. lia.
  - by intros ->.
Qed.

(** X6: an object given as the body of a signed request is serialized
    once, with [JSON.stringify]: the text that is sent is the text that was
    signed.  The signed message is that text, the nonce and the path of
    the URL without a leading [/derivatives]; the content type is JSON and
    the query parameters are left alone. *)
Theorem object_body_is_signed_as_sent now config o :
  Api.is_public config = false →
  Api.data config = Some (Api.Object o) →
  let signed := Api.interceptor options now config in
  let pathname :=
    url_pathname (default "" (Api.url config)) (Api.getBaseURL options) in
  ∃ path,
    ((String.prefix "/derivatives" pathname = false ∧ path = pathname)
     ∨ pathname = "/derivatives" +:+ path)
    ∧ Api.data signed = Some (Api.Text (json_stringify o))
    ∧ Api.headers signed !! "Authent"
      = Some (sign options
                (json_stringify o +:+ Api.toString (now * 1000) +:+ path))
    ∧ Api.headers signed !! "Content-Type" = Some "application/json"
    ∧ Api.params signed = Api.params config.
Proof.
  intros Hpub Hdata signed pathname.
  eexists. split; [apply (signed_path_cases pathname)|].
  unfold signed, Api.interceptor. rewrite Hpub, Hdata. simpl.
  split_and!; [done| |apply lookup_insert_eq|done].
  rewrite lookup_insert_ne by done. by rewrite lookup_insert_eq.
Qed.

(** X7: query parameters of a signed request without body are signed as
    their [qs] serialization.  When the method is POST, in any letter case,
    the serialization becomes the body and the parameters are emptied;
    for any other method the request keeps its parameters and gets no
    body. *)
Theorem params_are_signed_and_posted now config p :
  Api.is_public config = false →
  Api.data config = None →
  Api.params config = Some p →
  let signed := Api.interceptor options now config in
  let pathname :=
    url_pathname (default "" (Api.url config)) (Api.getBaseURL options) in
  ∃ path,
    ((String.prefix "/derivatives" pathname = false ∧ path = pathname)
     ∨ pathname = "/derivatives" +:+ path)
    ∧ Api.headers signed !! "Authent"
      = Some (sign options
                (qs_stringify p +:+ Api.toString (now * 1000) +:+ path))
    ∧ Api.headers signed !! "Content-Type"
      = Some "application/x-www-form-urlencoded"
    ∧ if bool_decide (Api.toUpperCase <$> Api.method config = Some "POST")
      then Api.data signed = Some (Api.Text (qs_stringify p))
           ∧ Api.params signed = Some empty_object
      else Api.data signed = None ∧ Api.params signed = Some p.
Proof.
  intros Hpub Hdata Hparams signed pathname.
  eexists. split; [apply (signed_path_cases pathname)|].
  unfold signed, Api.interceptor. rewrite Hpub, Hdata, Hparams.
  case_bool_decide; simpl;
    (split_and!; [|apply lookup_insert_eq|done..]);
    rewrite lookup_insert_ne by done; by rewrite lookup_insert_eq.
Qed.

End SignerDetails.

Lemma public_endpoint_is_not_signed_witness :
  Api.interceptor example_options 1700000000000%Z candles_request
  = candles_request.
Proof.
  apply (@public_endpoint_is_not_signed example_platform example_options
           1700000000000%Z candles_request Api.ENDPOINTS_KLINE
           "/trade/PF_XBTUSD/1h").
  - unfold Api.PUBLIC_ENDPOINTS. rewrite !elem_of_cons. auto.
  - reflexivity.
Defined.

Lemma authenticated_endpoint_is_signed_witness :
  let signed :=
    Api.interceptor example_options 1700000000000%Z send_order_request in
  Api.headers signed !! "APIKey" = Some "key"
  ∧ Api.headers signed !! "Nonce" = Some (Api.toString (1700000000000 * 1000))
  ∧ is_Some (Api.headers signed !! "Authent")
  ∧ (Api.headers signed !! "Content-Type" = Some "application/json"
     ∨ Api.headers signed !! "Content-Type"
       = Some "application/x-www-form-urlencoded")
  ∧ Api.timeout signed = Some 5000%Z
  ∧ Api.url signed = Api.url send_order_request
  ∧ ∀ k, Api.is_ascii k = true →
      Api.toLowerCase k ∉ Api.toLowerCase <$> signing_headers →
      Api.headers signed !! k = Api.headers send_order_request !! k.
Proof.
  apply (@authenticated_endpoint_is_signed example_platform example_options
           1700000000000%Z send_order_request Endpoints.PLACE_ORDER "").
  - unfold Endpoints.authenticated. rewrite !elem_of_cons. auto 10.
  - reflexivity.
Defined.

Lemma same_nonce_iff_same_millisecond_witness :
  Api.headers
    (Api.interceptor example_options 1700000000000%Z send_order_request)
    !! "Nonce"
  = Api.headers
      (Api.interceptor example_options 1700000000001%Z batch_request)
      !! "Nonce"
  ↔ 1700000000000%Z = 1700000000001%Z.
Proof.
  apply (@same_nonce_iff_same_millisecond example_platform example_options);
    reflexivity.
Defined.

Lemma object_body_is_signed_as_sent_witness :
  let signed :=
    Api.interceptor example_options 1700000000000%Z batch_request in
  ∃ path,
    ((String.prefix "/derivatives" "/derivatives/api/v3/batchorder" = false
      ∧ path = "/derivatives/api/v3/batchorder")
     ∨ "/derivatives/api/v3/batchorder" = "/derivatives" +:+ path)
    ∧ Api.data signed = Some (Api.Text "{batchOrder:[]}")
    ∧ Api.headers signed !! "Authent"
      = Some (@sign example_platform example_options
                ("{batchOrder:[]}" +:+ Api.toString (1700000000000 * 1000)
                 +:+ path))
    ∧ Api.headers signed !! "Content-Type" = Some "application/json"
    ∧ Api.params signed = None.
Proof.
  apply (@object_body_is_signed_as_sent example_platform example_options
           1700000000000%Z batch_request "{batchOrder:[]}");
    reflexivity.
Defined.

Lemma params_are_signed_and_posted_witness :
  let signed :=
    Api.interceptor example_options 1700000000000%Z send_order_request in
  ∃ path,
    ((String.prefix "/derivatives" "/derivatives/api/v3/sendorder" = false
      ∧ path = "/derivatives/api/v3/sendorder")
     ∨ "/derivatives/api/v3/sendorder" = "/derivatives" +:+ path)
    ∧ Api.headers signed !! "Authent"
      = Some (@sign example_platform example_options
                ("symbol=PF_XBTUSD&side=buy&size=1"
                 +:+ Api.toString (1700000000000 * 1000) +:+ path))
    ∧ Api.headers signed !! "Content-Type"
      = Some "application/x-www-form-urlencoded"
    ∧ Api.data signed
      = Some (@Api.Text example_platform "symbol=PF_XBTUSD&side=buy&size=1")
    ∧ Api.params signed = Some "".
Proof.
  apply (@params_are_signed_and_posted example_platform example_options
           1700000000000%Z send_order_request
           "symbol=PF_XBTUSD&side=buy&size=1");
    reflexivity.
Defined.

(** ** handleOrderBookEvent: what one event does to the book *)

Lemma levels_running_total acc l : levels (running_total acc l) = levels l.
Proof.
  unfold levels. revert acc.
  induction l as [|o l IH]; intros acc; simpl; [done|]. by rewrite IH.
Qed.

Lemma levels_sort before l : levels (sort_levels before l) ≡ₚ levels l.
Proof. unfold levels. by rewrite sort_levels_perm. Qed.

Lemma levels_published_bids ob :
  levels (bids (calcOrderBookTotal (sortOrderBook ob))) ≡ₚ levels (bids ob).
Proof. simpl. by rewrite levels_running_total, levels_sort. Qed.

Lemma levels_published_asks ob :
  levels (asks (calcOrderBookTotal (sortOrderBook ob))) ≡ₚ levels (asks ob).
Proof. simpl. by rewrite levels_running_total, levels_sort. Qed.

Lemma levels_filter_absent p l :
  p ∉ price <$> l → filter (λ x, x.1 ≠ p) (levels l) = levels l.
Proof.
  intros Hp. unfold levels. induction l as [|o l IH]; [done|].
  rewrite fmap_cons in Hp. apply not_elem_of_cons in Hp as [Hne Hp].
  rewrite fmap_cons, filter_cons_True by (simpl; congruence).
  by rewrite IH.
Qed.

(** A side with one level per price, split at the level of a price. *)
Lemma unique_prices_split l i o :
  unique_prices l → l !! i = Some o →
  ∃ l1 l2, l = l1 ++ o :: l2 ∧ i = length l1
    ∧ (price o ∉ price <$> l1) ∧ (price o ∉ price <$> l2).
Proof.
  intros Hnd Hi. exists (take i l), (drop (S i) l).
  pose proof (take_drop_middle l i o Hi) as Hl.
  unfold unique_prices in Hnd. rewrite <- Hl, fmap_app, fmap_cons in Hnd.
  apply NoDup_app in Hnd as (_ & Hdisj & Hnd2).
  apply NoDup_cons in Hnd2 as [Hnot2 _].
  split_and!; [done| |intros Hin; apply (Hdisj _ Hin); left|done].
  rewrite length_take. apply lookup_lt_Some in Hi. lia.
Qed.

(** Lines 146-147: a delta of quantity 0 for a price of the side removes
    the level of that price and keeps the others. *)
Lemma apply_delta_remove p side :
  unique_prices side → p ∈ price <$> side →
  levels (Pub.apply_delta p 0 side) = filter (λ x, x.1 ≠ p) (levels side).
Proof.
  intros Hnd Hin. unfold Pub.apply_delta.
  destruct (list_find _ side) as [[i o]|] eqn:Hfind.
  - apply list_find_Some in Hfind as (Hi & Hp & _).
    destruct (unique_prices_split side i o Hnd Hi)
      as (l1 & l2 & -> & -> & H1 & H2).
    rewrite bool_decide_true by done. rewrite delete_middle.
    rewrite Hp in H1, H2.
    unfold levels at 2. rewrite fmap_app, fmap_cons, filter_app.
    rewrite filter_cons_False by (simpl; intros Hx; by apply Hx).
    fold (levels l1). fold (levels l2).
    rewrite !levels_filter_absent by done.
    unfold levels. by rewrite fmap_app.
  - apply list_find_None in Hfind. rewrite Forall_forall in Hfind.
    apply list_elem_of_fmap in Hin as (o & -> & Ho). by destruct (Hfind o).
Qed.

(** Lines 148-155: a delta of another quantity sets the amount at its
    price, replacing the level of that price or adding one. *)
Lemma apply_delta_set p q side :
  q ≠ 0%Z → unique_prices side →
  levels (Pub.apply_delta p q side)
  ≡ₚ (p, q) :: filter (λ x, x.1 ≠ p) (levels side).
Proof.
  intros Hq Hnd. unfold Pub.apply_delta.
  destruct (list_find _ side) as [[i o]|] eqn:Hfind.
  - apply list_find_Some in Hfind as (Hi & Hp & _).
    destruct (unique_prices_split side i o Hnd Hi)
      as (l1 & l2 & -> & -> & H1 & H2).
    rewrite bool_decide_false by done.
    replace (length l1) with (length l1 + 0) by lia.
    rewrite alter_app_r. simpl.
    rewrite Hp in H1, H2.
    unfold levels. rewrite !fmap_app, !fmap_cons, filter_app.
    rewrite filter_cons_False by (simpl; intros Hx; by apply Hx).
    fold (levels l1). fold (levels l2).
    rewrite !levels_filter_absent by done. simpl. rewrite Hp.
    by rewrite Permutation_middle.
  - apply list_find_None in Hfind.
    assert (Hp : p ∉ price <$> side).
    { intros (o & -> & Ho)%list_elem_of_fmap.
      rewrite Forall_forall in Hfind. by apply (Hfind o). }
    rewrite levels_filter_absent by done.
    unfold levels. rewrite fmap_app. simpl.
    by rewrite <- Permutation_cons_append.
Qed.

Section OneDelta.
Variables (s : Pub.State) (p : string) (cb : Pub.Callback) (ob : OrderBook).
Hypothesis Hcb : Pub.orderBookCallbacks s !! p = Some cb.
Hypothesis Hob : Pub.orderBooks s !! p = Some ob.

Lemma delta_result side price0 qty :
  Pub.handleOrderBookEvent (delta p side price0 qty) s
  = Js.Return ()
      (Pub.publish p cb
         (if String.eqb side "buy" then
            set_bids (Pub.apply_delta price0 qty (bids ob)) ob
          else set_asks (Pub.apply_delta price0 qty (asks ob)) ob) s).
Proof. unfold Pub.handleOrderBookEvent. simpl. by rewrite Hcb, Hob. Qed.

(** X8: on a side with one level per price, a delta of quantity 0 for a
    price of that side is handled without exception and leaves the side
    without that price and with the prices and amounts of all its other
    levels. *)
Theorem delta_of_quantity_zero_removes_level side price0 :
  unique_prices (side_of side ob) →
  price0 ∈ price <$> side_of side ob →
  ∃ s' ob',
    Pub.handleOrderBookEvent (delta p side price0 0) s = Js.Return () s'
    ∧ Pub.orderBooks s' !! p = Some ob'
    ∧ levels (side_of side ob')
      ≡ₚ filter (λ x, x.1 ≠ price0) (levels (side_of side ob))
    ∧ price0 ∉ (price <$> side_of side ob').
Proof.
  intros Hnd Hin. rewrite delta_result. eexists _, _.
  split; [done|]. rewrite publish_book. split; [done|].
  assert (Hlev : levels (side_of side (calcOrderBookTotal (sortOrderBook
             (if String.eqb side "buy" then
                set_bids (Pub.apply_delta price0 0 (bids ob)) ob
              else set_asks (Pub.apply_delta price0 0 (asks ob)) ob))))
           ≡ₚ filter (λ x, x.1 ≠ price0) (levels (side_of side ob))).
  { unfold side_of in *. destruct (String.eqb side "buy").
    - rewrite levels_published_bids. simpl. by rewrite apply_delta_remove.
    - rewrite levels_published_asks. simpl. by rewrite apply_delta_remove. }
  split; [done|].
  intros (o & Hp & Ho)%list_elem_of_fmap.
  assert (Hpair : (price o, amount o)
                  ∈ filter (λ x, x.1 ≠ price0) (levels (side_of side ob))).
  { rewrite <- Hlev. unfold levels. apply list_elem_of_fmap. eauto. }
  apply list_elem_of_filter in Hpair as [Hne _]. simpl in Hne. congruence.
Qed.

(** X9: on a side with one level per price, a delta of a quantity other
    than 0 is handled without exception and sets the amount at its price:
    afterwards the side has that price with that amount, once, and the
    prices and amounts of all its other levels. *)
Theorem delta_sets_amount_at_price side price0 qty :
  qty ≠ 0%Z →
  unique_prices (side_of side ob) →
  ∃ s' ob',
    Pub.handleOrderBookEvent (delta p side price0 qty) s = Js.Return () s'
    ∧ Pub.orderBooks s' !! p = Some ob'
    ∧ levels (side_of side ob')
      ≡ₚ (price0, qty)
         :: filter (λ x, x.1 ≠ price0) (levels (side_of side ob)).
Proof.
  intros Hq Hnd. rewrite delta_result. eexists _, _.
  split; [done|]. rewrite publish_book. split; [done|].
  unfold side_of in *. destruct (String.eqb side "buy").
  - rewrite levels_published_bids. simpl. by apply apply_delta_set.
  - rewrite levels_published_asks. simpl. by apply apply_delta_set.
Qed.

End OneDelta.

Lemma delta_of_quantity_zero_removes_level_witness :
  ∃ s' ob',
    Pub.handleOrderBookEvent (delta "PF_XBTUSD" "buy" 99 0) with_book
      = Js.Return () s'
    ∧ Pub.orderBooks s' !! "PF_XBTUSD" = Some ob'
    ∧ levels (side_of "buy" ob')
      ≡ₚ filter (λ x, x.1 ≠ 99%Z) (levels (side_of "buy" example_book))
    ∧ 99%Z ∉ (price <$> side_of "buy" ob').
Proof.
  apply (delta_of_quantity_zero_removes_level with_book "PF_XBTUSD" 7
           example_book).
  - reflexivity.
  - reflexivity.
  - unfold unique_prices. simpl. apply NoDup_cons. split.
    + intros H%list_elem_of_singleton. discriminate.
    + apply NoDup_singleton.
  - simpl. right. left.
Defined.

Lemma delta_sets_amount_at_price_witness :
  ∃ s' ob',
    Pub.handleOrderBookEvent (delta "PF_XBTUSD" "sell" 101 5) with_book
      = Js.Return () s'
    ∧ Pub.orderBooks s' !! "PF_XBTUSD" = Some ob'
    ∧ levels (side_of "sell" ob')
      ≡ₚ (101%Z, 5%Z)
         :: filter (λ x, x.1 ≠ 101%Z) (levels (side_of "sell" example_book)).
Proof.
  apply (delta_sets_amount_at_price with_book "PF_XBTUSD" 7 example_book).
  - reflexivity.
  - reflexivity.
  - discriminate.
  - apply NoDup_singleton.
Defined.

Lemma sort_levels_sorted_id before l :
  StronglySorted (λ a b, before (price a) (price b) = true) l →
  sort_levels before l = l.
Proof.
  induction 1 as [|x l Hl IH Hx]; simpl; [done|].
  rewrite IH. destruct l as [|y l']; simpl; [done|].
  apply Forall_cons in Hx as [Hxy _]. by rewrite Hxy.
Qed.

Lemma running_total_id l : ∀ acc,
  (∀ i o, l !! i = Some o → total o = (acc + sum_amounts (take (S i) l))%Z) →
  running_total acc l = l.
Proof.
  induction l as [|x l IH]; intros acc Htot; simpl; [done|].
  pose proof (Htot 0 x eq_refl) as H0. simpl in H0.
  assert (Hx : set_total (acc + amount x) x = x).
  { destruct x as [px ax tx]; unfold set_total; simpl in *.
    f_equal. destruct l; simpl in H0; lia. }
  rewrite Hx. f_equal. apply IH. intros i o Hi.
  rewrite (Htot (S i) o Hi). simpl. lia.
Qed.

Lemma sorted_weaken (R S : Order → Order → Prop) l :
  (∀ a b, R a b → S a b) → StronglySorted R l → StronglySorted S l.
Proof.
  intros HRS. induction 1 as [|x l Hl IH Hx]; constructor; [done|].
  eapply Forall_impl; [exact Hx|]. auto.
Qed.

(** Sorting and totalling leave a well-formed side as it is. *)
Lemma sort_calc_bids_id l :
  strictly_descending l → totals_ok l →
  running_total 0 (sort_levels Z.geb l) = l.
Proof.
  intros Hs Ht. rewrite sort_levels_sorted_id.
  - apply running_total_id. intros i o Hi. rewrite (Ht i o Hi). lia.
  - eapply sorted_weaken; [|exact Hs].
    intros a b Hab. simpl in Hab. apply Z.geb_le. lia.
Qed.

Lemma sort_calc_asks_id l :
  strictly_ascending l → totals_ok l →
  running_total 0 (sort_levels Z.leb l) = l.
Proof.
  intros Hs Ht. rewrite sort_levels_sorted_id.
  - apply running_total_id. intros i o Hi. rewrite (Ht i o Hi). lia.
  - eapply sorted_weaken; [|exact Hs].
    intros a b Hab. simpl in Hab. apply Z.leb_le. lia.
Qed.

(** X10: a delta changes one side only: on a well-formed book, the side
    that the delta does not name is the same list of levels afterwards,
    totals included. *)
Theorem delta_leaves_other_side s p cb ob side price0 qty :
  Pub.orderBookCallbacks s !! p = Some cb →
  Pub.orderBooks s !! p = Some ob →
  book_ok ob →
  ∃ s' ob',
    Pub.handleOrderBookEvent (delta p side price0 qty) s = Js.Return () s'
    ∧ Pub.orderBooks s' !! p = Some ob'
    ∧ other_side_of side ob' = other_side_of side ob.
Proof.
  intros Hcb Hob Hok. rewrite (delta_result s p cb ob Hcb Hob).
  eexists _, _. split; [done|]. rewrite publish_book. split; [done|].
  unfold other_side_of. destruct Hok. destruct (String.eqb side "buy"); simpl.
  - by apply sort_calc_asks_id.
  - by apply sort_calc_bids_id.
Qed.

Lemma example_book_ok : book_ok example_book.
Proof.
  split; simpl.
  - repeat constructor; simpl; lia.
  - repeat constructor.
  - unfold unique_prices. simpl. apply NoDup_cons. split.
    + intros H%list_elem_of_singleton. discriminate.
    + apply NoDup_singleton.
  - apply NoDup_singleton.
  - intros [|[|i]] o; simpl; intros [= <-]; reflexivity.
  - intros [|i] o; simpl; intros [= <-]; reflexivity.
Qed.

Lemma delta_leaves_other_side_witness :
  ∃ s' ob',
    Pub.handleOrderBookEvent (delta "PF_XBTUSD" "buy" 98 4) with_book
      = Js.Return () s'
    ∧ Pub.orderBooks s' !! "PF_XBTUSD" = Some ob'
    ∧ other_side_of "buy" ob' = other_side_of "buy" example_book.
Proof.
  apply (delta_leaves_other_side with_book "PF_XBTUSD" 7 example_book).
  - reflexivity.
  - reflexivity.
  - exact example_book_ok.
Defined.

(** X11: a snapshot replaces the book whatever it held before: afterwards
    each side has exactly the prices and quantities of the snapshot, with
    running totals, and the callback of the product has received that
    book. *)
Theorem snapshot_replaces_book s p cb bs aks :
  Pub.orderBookCallbacks s !! p = Some cb →
  ∃ s' ob',
    Pub.handleOrderBookEvent (snapshot p bs aks) s = Js.Return () s'
    ∧ Pub.orderBooks s' !! p = Some ob'
    ∧ levels (bids ob')
      ≡ₚ (λ l, (Pub.level_price l, Pub.level_qty l)) <$> bs
    ∧ levels (asks ob')
      ≡ₚ (λ l, (Pub.level_price l, Pub.level_qty l)) <$> aks
    ∧ totals_ok (bids ob') ∧ totals_ok (asks ob')
    ∧ Pub.invoked s' = Pub.invoked s ++ [(cb, ob')].
Proof.
  intros Hcb. unfold Pub.handleOrderBookEvent. simpl. rewrite Hcb.
  assert (Hlev : ∀ l : list Pub.Level,
            levels (Pub.level_to_order <$> l)
            = (λ l, (Pub.level_price l, Pub.level_qty l)) <$> l).
  { intros l. unfold levels. by rewrite <- list_fmap_compose. }
  destruct (Pub.orderBooks s !! p) as [ob|]; simpl;
    (eexists _, _; split; [reflexivity|]);
    rewrite publish_book; (split; [reflexivity|]);
    rewrite levels_published_bids, levels_published_asks; simpl;
    rewrite !Hlev;
    (split_and!; [done|done|apply running_total_ok..|by destruct s]).
Qed.

Lemma snapshot_replaces_book_witness :
  ∃ s' ob',
    Pub.handleOrderBookEvent
      (snapshot "PF_XBTUSD" [] [ {| Pub.level_price := 105; Pub.level_qty := 9 |} ])
      with_book = Js.Return () s'
    ∧ Pub.orderBooks s' !! "PF_XBTUSD" = Some ob'
    ∧ levels (bids ob') ≡ₚ []
    ∧ levels (asks ob') ≡ₚ [(105%Z, 9%Z)]
    ∧ totals_ok (bids ob') ∧ totals_ok (asks ob')
    ∧ Pub.invoked s' = Pub.invoked with_book ++ [(7, ob')].
Proof.
  apply (snapshot_replaces_book with_book "PF_XBTUSD" 7
           [] [ {| Pub.level_price := 105; Pub.level_qty := 9 |} ]).
  reflexivity.
Defined.

(** X12: an order-book event whose product id names no property of
    [Object.prototype], built-in or written by a handler, whether it is
    handled to the end or raises,
    touches nothing but the book of its own product and the log of
    invocations: the callbacks, the books of the other products, the
    topics, the store, the socket, the frames sent and the timers stay. *)
Theorem order_book_event_frame data s :
  plain (Pub.data_product_id data) →
  ∃ s', (Pub.handleOrderBookEvent data s = Js.Return () s'
         ∨ Pub.handleOrderBookEvent data s = Js.Throw s')
    ∧ Pub.orderBookCallbacks s' = Pub.orderBookCallbacks s
    ∧ (∀ q, q ≠ Pub.data_product_id data →
         Pub.orderBooks s' !! q = Pub.orderBooks s !! q)
    ∧ Pub.topics s' = Pub.topics s
    ∧ Pub.store s' = Pub.store s
    ∧ Pub.ws s' = Pub.ws s
    ∧ Pub.sent s' = Pub.sent s
    ∧ Pub.timers s' = Pub.timers s.
Proof.
  intros [Hn _]%not_elem_of_app.
  unfold Pub.handleOrderBookEvent, Pub.inherited.
  destruct (Pub.orderBookCallbacks s !! _) as [cb|].
  - destruct (Pub.orderBooks s !! _) as [ob|];
      repeat case_bool_decide;
      destruct (Pub.data_bids data), (Pub.data_asks data);
      (eexists; split; [by (left + right)|]);
      destruct s; simpl;
      (split_and!; try done; intros q Hq; by rewrite ?lookup_insert_ne).
  - rewrite bool_decide_eq_false_2 by done. exists s. by split_and!; auto.
Qed.

Lemma order_book_event_frame_witness :
  ∃ s', (Pub.handleOrderBookEvent snapshot_without_asks
           (listening "PF_XBTUSD" 7) = Js.Return () s'
         ∨ Pub.handleOrderBookEvent snapshot_without_asks
             (listening "PF_XBTUSD" 7) = Js.Throw s')
    ∧ Pub.orderBookCallbacks s'
      = Pub.orderBookCallbacks (listening "PF_XBTUSD" 7)
    ∧ (∀ q, q ≠ Pub.data_product_id snapshot_without_asks →
         Pub.orderBooks s' !! q
         = Pub.orderBooks (listening "PF_XBTUSD" 7) !! q)
    ∧ Pub.topics s' = Pub.topics (listening "PF_XBTUSD" 7)
    ∧ Pub.store s' = Pub.store (listening "PF_XBTUSD" 7)
    ∧ Pub.ws s' = Pub.ws (listening "PF_XBTUSD" 7)
    ∧ Pub.sent s' = Pub.sent (listening "PF_XBTUSD" 7)
    ∧ Pub.timers s' = Pub.timers (listening "PF_XBTUSD" 7).
Proof.
  apply (order_book_event_frame snapshot_without_asks
           (listening "PF_XBTUSD" 7)).
  unfold plain. apply (bool_decide_unpack _). vm_compute. exact I.
Defined.

(** ** listenOrderBook and the functions it returns *)

Lemma list_find_product_None p (bk : list Pub.Topic) :
  p ∉ Pub.product_id <$> bk →
  list_find (λ t, Pub.product_id t = p) bk = None.
Proof.
  intros Hp. apply list_find_None, Forall_forall. intros t Ht Heq.
  apply Hp. rewrite <- Heq. apply list_elem_of_fmap. eauto.
Qed.

Lemma list_find_product_Some p (bk : list Pub.Topic) i t :
  list_find (λ t, Pub.product_id t = p) bk = Some (i, t) →
  p ∈ Pub.product_id <$> bk.
Proof.
  intros (Hi & <- & _)%list_find_Some. apply list_elem_of_fmap.
  exists t. split; [done|]. by eapply list_elem_of_lookup_2.
Qed.

(** The five ways a call of [listenOrderBook] ends. *)
Lemma listen_shapes symbol cb s :
  let r := Pub.listenOrderBook symbol cb s in
  (∃ t, r = Js.Return (Pub.ClearRetry (Pub.next_timer s))
                (Pub.set_next_timer (S (Pub.next_timer s))
                   (Pub.set_timers (Pub.timers s ++ [t]) s))
        ∧ Pub.timer_id t = Pub.next_timer s)
  ∨ r = Js.Return Pub.Nothing s
  ∨ r = Js.Throw s
  ∨ (∃ p bk, Pub.topics_get "book" (Pub.topics s) = Some bk
       ∧ p ∈ Pub.product_id <$> bk
       ∧ r = Js.Return (Pub.Release p)
               (Pub.set_orderBookCallbacks
                  (<[p := cb]> (Pub.orderBookCallbacks s)) s))
  ∨ (∃ p bk cmds, Pub.topics_get "book" (Pub.topics s) = Some bk
       ∧ (p ∉ Pub.product_id <$> bk)
       ∧ (Pub.isConnected s = false → cmds = [])
       ∧ r = Js.Return (Pub.Release p)
               (Pub.set_orderBookCallbacks
                  (<[p := cb]> (Pub.orderBookCallbacks s))
                  (Pub.set_sent (Pub.sent s ++ cmds)
                     (Pub.set_topics
                        (Pub.topics_set "book" (bk ++ [book_topic p])
                           (Pub.topics s)) s)))).
Proof.
  simpl. unfold Pub.listenOrderBook.
  destruct (negb _); [left; eexists; split; [reflexivity|done]|].
  destruct (list_find _ (Pub.markets _)) as [[i m]|]; [|right; by left].
  destruct (Pub.topics_get _ _) as [bk|] eqn:Hbk; [|do 2 right; by left].
  destruct (list_find _ bk) as [[j t]|] eqn:Hfind.
  - do 3 right. left. exists (Pub.market_id m), bk.
    split_and!; [done|by eapply list_find_product_Some|done].
  - do 4 right. fold (book_topic (Pub.market_id m)).
    assert (Hp : Pub.market_id m ∉ Pub.product_id <$> bk).
    { intros (t & Ht & Hin)%list_elem_of_fmap.
      apply list_find_None in Hfind. rewrite Forall_forall in Hfind.
      by apply (Hfind t). }
    set (s1 := Pub.set_topics _ s).
    replace (Pub.isConnected s1) with (Pub.isConnected s) by (by destruct s).
    destruct (Pub.isConnected s) eqn:Hc.
    + exists (Pub.market_id m), bk, (subscribe_commands s1).
      split_and!; [done..|]. rewrite subscribe_sent.
      unfold Pub.isConnected in Hc.
      replace (Pub.ws s1) with (Pub.ws s) by (by destruct s).
      destruct (Pub.ws s) as [[]|]; try done. by destruct s.
    + exists (Pub.market_id m), bk, []. split_and!; [done..|].
      rewrite app_nil_r. by destruct s.
Qed.

(** X13: the function returned for a product, called where the book
    topics exist, forgets the product: its callback, its book and its topic
    are removed, the others stay, an unsubscribe command is sent exactly
    when the socket is open, and every later order-book event for the
    product finds no callback: it leaves the state as it is, unless the
    product id names a property of [Object.prototype], where line 111
    finds the built-in object. *)
Theorem unsubscribe_forgets_product s p bk :
  Pub.topics_get "book" (Pub.topics s) = Some bk →
  ∃ s',
    Pub.callUnsubscribe (Pub.Release p) s = Js.Return () s'
    ∧ Pub.orderBookCallbacks s' = delete p (Pub.orderBookCallbacks s)
    ∧ Pub.orderBooks s' = delete p (Pub.orderBooks s)
    ∧ Pub.topics_get "book" (Pub.topics s')
      = Some (filter (λ t, Pub.product_id t ≠ p) bk)
    ∧ Pub.sent s'
      = Pub.sent s
        ++ (if Pub.isConnected s then [unsubscribe_command p] else [])
    ∧ ∀ data, Pub.data_product_id data = p →
        Pub.handleOrderBookEvent data s'
        = if Pub.inherited p then Js.Escape s' else Js.Return () s'.
Proof.
  intros Hbk. unfold Pub.callUnsubscribe. rewrite Hbk.
  set (s1 := Pub.set_orderBooks _ _).
  assert (Hs1 : Pub.orderBookCallbacks s1 = delete p (Pub.orderBookCallbacks s)
                ∧ Pub.orderBooks s1 = delete p (Pub.orderBooks s)
                ∧ Pub.topics_get "book" (Pub.topics s1)
                  = Some (filter (λ t, Pub.product_id t ≠ p) bk)
                ∧ Pub.sent s1 = Pub.sent s ∧ Pub.ws s1 = Pub.ws s).
  { destruct s; simpl. split_and!; try done. apply topics_get_set. }
  destruct Hs1 as (Hcb & Hob & Htp & Hsent & Hws).
  replace (Pub.isConnected s1) with (Pub.isConnected s)
    by (unfold Pub.isConnected; by rewrite Hws).
  clearbody s1.
  assert (Hfinal : ∀ cmds,
    let s2 := Pub.set_sent (Pub.sent s1 ++ cmds) s1 in
    Pub.orderBookCallbacks s2 = delete p (Pub.orderBookCallbacks s)
    ∧ Pub.orderBooks s2 = delete p (Pub.orderBooks s)
    ∧ Pub.topics_get "book" (Pub.topics s2)
      = Some (filter (λ t, Pub.product_id t ≠ p) bk)
    ∧ Pub.sent s2 = Pub.sent s ++ cmds
    ∧ ∀ data, Pub.data_product_id data = p →
        Pub.handleOrderBookEvent data s2
        = if Pub.inherited p then Js.Escape s2 else Js.Return () s2).
  { intros cmds s2.
    assert (H2 : Pub.orderBookCallbacks s2
                 = delete p (Pub.orderBookCallbacks s))
      by (rewrite <- Hcb; by destruct s1).
    split_and!;
      [done|rewrite <- Hob; by destruct s1|rewrite <- Htp; by destruct s1
      |rewrite <- Hsent; by destruct s1|].
    intros data Hp. unfold Pub.handleOrderBookEvent.
    by rewrite Hp, H2, lookup_delete_eq. }
  destruct (Pub.isConnected s) eqn:Hc.
  - eexists. split; [done|]. fold (unsubscribe_command p).
    unfold Pub.isConnected in Hc. unfold Pub.send. rewrite Hws.
    destruct (Pub.ws s) as [[]|]; try discriminate.
    apply (Hfinal [unsubscribe_command p]).
  - exists s1. split; [done|].
    assert (Heq : s1 = Pub.set_sent (Pub.sent s1 ++ []) s1)
      by (rewrite app_nil_r; by destruct s1).
    rewrite Heq. apply (Hfinal []).
Qed.

Lemma unsubscribe_forgets_product_witness :
  ∃ s',
    Pub.callUnsubscribe (Pub.Release "PF_XBTUSD")
      (Pub.run [Pub.Listen "XBTUSD" 7] connected) = Js.Return () s'
    ∧ Pub.orderBookCallbacks s'
      = delete "PF_XBTUSD"
          (Pub.orderBookCallbacks (Pub.run [Pub.Listen "XBTUSD" 7] connected))
    ∧ Pub.orderBooks s'
      = delete "PF_XBTUSD"
          (Pub.orderBooks (Pub.run [Pub.Listen "XBTUSD" 7] connected))
    ∧ Pub.topics_get "book" (Pub.topics s')
      = Some (filter (λ t, Pub.product_id t ≠ "PF_XBTUSD")
                [book_topic "PF_XBTUSD"])
    ∧ Pub.sent s'
      = Pub.sent (Pub.run [Pub.Listen "XBTUSD" 7] connected)
        ++ (if Pub.isConnected (Pub.run [Pub.Listen "XBTUSD" 7] connected)
            then [unsubscribe_command "PF_XBTUSD"] else [])
    ∧ ∀ data, Pub.data_product_id data = "PF_XBTUSD" →
        Pub.handleOrderBookEvent data s' = Js.Return () s'.
Proof.
  destruct (unsubscribe_forgets_product
              (Pub.run [Pub.Listen "XBTUSD" 7] connected) "PF_XBTUSD"
              [book_topic "PF_XBTUSD"] eq_refl)
    as (s' & H1 & H2 & H3 & H4 & H5 & H6).
  exists s'. split_and!; assumption.
Defined.

(** X14: while the markets are not loaded, [listenOrderBook] schedules one
    retry and changes nothing else; the function it returns, called before
    that retry has fired, cancels it: the timers are those from before the
    call and only the counter of timer ids has moved. *)
Theorem unsubscribe_before_first_retry_cancels s symbol cb :
  Pub.loaded_markets (Pub.store s) = false →
  timers_fresh s →
  ∃ u s1,
    Pub.listenOrderBook symbol cb s = Js.Return u s1
    ∧ Pub.timers s1
      = Pub.timers s
        ++ [ {| Pub.timer_id := Pub.next_timer s; Pub.timer_symbol := symbol;
                Pub.timer_callback := cb |} ]
    ∧ Pub.callUnsubscribe u s1
      = Js.Return () (Pub.set_next_timer (S (Pub.next_timer s)) s).
Proof.
  intros Hl Hfresh. unfold Pub.listenOrderBook. rewrite Hl. simpl.
  eexists _, _. split; [reflexivity|]. split; [by destruct s|].
  unfold Pub.callUnsubscribe. f_equal.
  assert (Hfilter : ∀ t0,
            Pub.timer_id t0 = Pub.next_timer s →
            filter (λ t, Pub.timer_id t ≠ Pub.next_timer s) (Pub.timers s ++ [t0])
            = Pub.timers s).
  { intros t0 Ht0. rewrite filter_app, filter_cons_False, filter_nil, app_nil_r
      by (intros Hne; by apply Hne).
    unfold timers_fresh in Hfresh.
    induction Hfresh as [|t l Ht Hl' IH]; [done|].
    rewrite filter_cons_True by lia. by rewrite IH. }
  destruct s as [a b c d e f tm n i j k]; simpl in *.
  by rewrite Hfilter.
Qed.

Lemma unsubscribe_before_first_retry_cancels_witness :
  ∃ u s1,
    Pub.listenOrderBook "XBTUSD" 7 (Pub.initial unloaded_store)
      = Js.Return u s1
    ∧ Pub.timers s1
      = Pub.timers (Pub.initial unloaded_store)
        ++ [ {| Pub.timer_id := 0; Pub.timer_symbol := "XBTUSD";
                Pub.timer_callback := 7 |} ]
    ∧ Pub.callUnsubscribe u s1
      = Js.Return () (Pub.set_next_timer 1 (Pub.initial unloaded_store)).
Proof.
  apply (unsubscribe_before_first_retry_cancels (Pub.initial unloaded_store)).
  - reflexivity.
  - constructor.
Defined.

(** X15: between the loading of the markets and the first
    [connectAndSubscribe] the topics have no [book] entry.  There a call of
    [listenOrderBook] for a known symbol raises and changes nothing, and a
    retry timer that fires is consumed by the exception: nothing is
    registered and no further retry is scheduled. *)
Theorem registration_before_first_connect_is_lost s tid i t j m :
  list_find (λ t, Pub.timer_id t = tid) (Pub.timers s) = Some (i, t) →
  Pub.loaded_markets (Pub.store s) = true →
  list_find (λ m, Pub.market_symbol m = Pub.timer_symbol t)
    (Pub.markets (Pub.store s)) = Some (j, m) →
  Pub.topics_get "book" (Pub.topics s) = None →
  Pub.listenOrderBook (Pub.timer_symbol t) (Pub.timer_callback t) s
  = Js.Throw s
  ∧ Pub.fireTimer tid s
    = Js.Throw
        (Pub.set_timers (filter (λ t, Pub.timer_id t ≠ tid) (Pub.timers s)) s).
Proof.
  intros Ht Hl Hm Hbk. split.
  - unfold Pub.listenOrderBook. by rewrite Hl, Hm, Hbk.
  - unfold Pub.fireTimer, Js.bind. rewrite Ht.
    set (s1 := Pub.set_timers _ s).
    unfold Pub.listenOrderBook.
    replace (Pub.store s1) with (Pub.store s) by (by destruct s).
    replace (Pub.topics s1) with (Pub.topics s) by (by destruct s).
    by rewrite Hl, Hm, Hbk.
Qed.

Lemma registration_before_first_connect_is_lost_witness :
  let s :=
    Pub.run [Pub.Listen "XBTUSD" 7; Pub.MarketsLoaded one_market]
      (Pub.initial unloaded_store) in
  Pub.listenOrderBook "XBTUSD" 7 s = Js.Throw s
  ∧ Pub.fireTimer 0 s
    = Js.Throw
        (Pub.set_timers (filter (λ t, Pub.timer_id t ≠ 0) (Pub.timers s)) s).
Proof.
  apply (registration_before_first_connect_is_lost
           (Pub.run [Pub.Listen "XBTUSD" 7; Pub.MarketsLoaded one_market]
              (Pub.initial unloaded_store))
           0 0
           {| Pub.timer_id := 0; Pub.timer_symbol := "XBTUSD";
              Pub.timer_callback := 7 |}
           0 {| Pub.market_id := "PF_XBTUSD"; Pub.market_symbol := "XBTUSD" |});
    reflexivity.
Defined.

(** X16: a book topic registered while the socket is still connecting
    sends nothing at the call; the [subscribe] of the next [open] event
    sends exactly one subscribe command that names the product under the
    book feed. *)
Theorem topic_registered_while_connecting_is_flushed s symbol cb i m bk :
  Pub.isDisposed s = false →
  Pub.ws s = Some Pub.CONNECTING →
  Pub.loaded_markets (Pub.store s) = true →
  list_find (λ m, Pub.market_symbol m = symbol) (Pub.markets (Pub.store s))
    = Some (i, m) →
  Pub.topics_get "book" (Pub.topics s) = Some bk →
  Pub.market_id m ∉ Pub.product_id <$> bk →
  ∃ s1 cmds,
    Pub.listenOrderBook symbol cb s
      = Js.Return (Pub.Release (Pub.market_id m)) s1
    ∧ Pub.sent s1 = Pub.sent s
    ∧ Pub.sent (Js.final (Pub.step Pub.WsOpen s1)) = Pub.sent s ++ cmds
    ∧ count (subscribes_book (Pub.market_id m)) cmds = 1.
Proof.
  intros Hd Hws Hl Hm Hbk Hp. unfold Pub.listenOrderBook.
  rewrite Hl, Hm, Hbk. simpl. rewrite list_find_product_None by done.
  fold (book_topic (Pub.market_id m)).
  set (s0 := Pub.set_topics _ s).
  replace (Pub.isConnected s0) with false
    by (unfold Pub.isConnected; destruct s; simpl in *; by subst).
  set (s1 := Pub.set_orderBookCallbacks _ s0).
  exists s1, (subscribe_commands (Pub.set_ws (Some Pub.OPEN) s1)).
  split; [done|]. split; [by destruct s|]. split.
  - simpl. replace (Pub.ws s1) with (Some Pub.CONNECTING)
      by (destruct s; simpl in *; by subst).
    simpl. unfold Pub.onOpen.
    replace (Pub.isDisposed (Pub.set_ws (Some Pub.OPEN) s1)) with false
      by (destruct s; simpl in *; by subst).
    rewrite subscribe_sent.
    replace (Pub.ws (Pub.set_ws (Some Pub.OPEN) s1)) with (Some Pub.OPEN)
      by (by destruct s).
    by destruct s.
  - apply (subscribe_commands_book _ _ (bk ++ [book_topic (Pub.market_id m)])).
    + destruct s; simpl. apply topics_get_set.
    + apply elem_of_app. right. left.
Qed.

Lemma topic_registered_while_connecting_is_flushed_witness :
  ∃ s1 cmds,
    Pub.listenOrderBook "XBTUSD" 7 (Pub.run [Pub.Start] (Pub.initial loaded_store))
      = Js.Return (Pub.Release "PF_XBTUSD") s1
    ∧ Pub.sent s1 = Pub.sent (Pub.run [Pub.Start] (Pub.initial loaded_store))
    ∧ Pub.sent (Js.final (Pub.step Pub.WsOpen s1))
      = Pub.sent (Pub.run [Pub.Start] (Pub.initial loaded_store)) ++ cmds
    ∧ count (subscribes_book "PF_XBTUSD") cmds = 1.
Proof.
  apply (topic_registered_while_connecting_is_flushed
           (Pub.run [Pub.Start] (Pub.initial loaded_store)) "XBTUSD" 7 0
           {| Pub.market_id := "PF_XBTUSD"; Pub.market_symbol := "XBTUSD" |} []);
    try reflexivity.
  simpl. apply not_elem_of_nil.
Defined.

(** ** connectAndSubscribe and subscribe *)

Lemma uniq_constant a (l : list string) :
  Forall (λ x, x = a) l →
  Pub.uniq l = match l with [] => [] | _ => [a] end.
Proof.
  induction 1 as [|x l -> Hl IH]; simpl; [done|].
  rewrite IH. destruct l; simpl; [done|].
  by rewrite filter_cons_False by (intros Hne; by apply Hne).
Qed.

Lemma filter_all {A} (P : A → Prop) `{∀ x, Decision (P x)} (l : list A) :
  Forall P l → filter P l = l.
Proof.
  induction 1 as [|x l Hx Hl IH]; [done|].
  rewrite filter_cons_True by done. by rewrite IH.
Qed.

Lemma ticker_topics_commands s ms :
  Pub.topics s
  = [ ("ticker",
       (λ m, {| Pub.feed := "ticker"; Pub.product_id := Pub.market_id m |})
         <$> ms);
      ("book", []) ] →
  subscribe_commands s = ticker_subscription ms.
Proof.
  intros Ht. unfold subscribe_commands. rewrite Ht. simpl.
  rewrite !app_nil_r.
  set (mk := λ m, {| Pub.feed := "ticker"; Pub.product_id := Pub.market_id m |}).
  assert (Hfeed : Forall (λ t, Pub.feed t = "ticker") (mk <$> ms))
    by (by apply Forall_fmap, Forall_true).
  assert (Hids : Pub.product_id <$> (mk <$> ms) = Pub.market_id <$> ms)
    by (by rewrite <- list_fmap_compose).
  rewrite (uniq_constant "ticker") by (by apply Forall_fmap).
  destruct ms as [|m ms]; [done|].
  unfold ticker_subscription. rewrite <- Hids.
  rewrite (fmap_cons mk) in *.
  revert Hfeed. generalize (mk <$> ms) as l.
  intros l Hfeed. rewrite fmap_cons. unfold omap, list_omap.
  rewrite (filter_all _ (mk m :: l)) by done.
  rewrite bool_decide_true by (simpl; lia). done.
Qed.

(** X17: on a session that is not disposed, [connectAndSubscribe] followed
    by the [open] event creates one socket and sends one subscribe command
    of the ticker feed that names every market of the store, in order, or
    nothing when the store has no market; the book topics start empty. *)
Theorem first_open_subscribes_every_ticker s :
  Pub.isDisposed s = false →
  let s' := Pub.run [Pub.Start; Pub.WsOpen] s in
  Pub.sent s' = Pub.sent s ++ ticker_subscription (Pub.markets (Pub.store s))
  ∧ Pub.ws s' = Some Pub.OPEN
  ∧ Pub.sockets s' = S (Pub.sockets s)
  ∧ Pub.topics_get "book" (Pub.topics s') = Some [].
Proof.
  intros Hd. simpl. unfold Pub.connectAndSubscribe. rewrite Hd.
  set (s1 := Pub.set_topics _ _).
  replace (Pub.ws s1) with (Some Pub.CONNECTING) by (by destruct s).
  simpl. unfold Pub.onOpen.
  replace (Pub.isDisposed (Pub.set_ws (Some Pub.OPEN) s1)) with false
    by (destruct s; simpl in *; by subst).
  rewrite subscribe_sent.
  replace (Pub.ws (Pub.set_ws (Some Pub.OPEN) s1)) with (Some Pub.OPEN)
    by (by destruct s).
  rewrite (ticker_topics_commands _ (Pub.markets (Pub.store s)))
    by (by destruct s).
  by destruct s.
Qed.

Lemma first_open_subscribes_every_ticker_witness :
  let s' := Pub.run [Pub.Start; Pub.WsOpen] (Pub.initial loaded_store) in
  Pub.sent s'
  = Pub.sent (Pub.initial loaded_store) ++ ticker_subscription one_market
  ∧ Pub.ws s' = Some Pub.OPEN
  ∧ Pub.sockets s' = 1
  ∧ Pub.topics_get "book" (Pub.topics s') = Some [].
Proof.
  apply (first_open_subscribes_every_ticker (Pub.initial loaded_store)).
  reflexivity.
Defined.




(** ** What every run of the public session keeps *)

Lemma onMessage_shapes json s :
  Js.final (Pub.onMessage json s) = s
  ∨ (∃ d, Pub.onMessage json s = Js.Return () (Pub.handleTickersEvent d s))
  ∨ (∃ d, Pub.isDisposed s = false
          ∧ Pub.onMessage json s = Pub.handleOrderBookEvent d s).
Proof.
  unfold Pub.onMessage. destruct (Pub.isDisposed s); [by left|].
  destruct json as [d|]; [|by left].
  destruct (Pub.data_feed d) as [f|]; [|by left].
  case_bool_decide; [by left|]. unfold Pub.messageHandlers.
  destruct (String.eqb f "ticker"); [right; left; eauto|].
  destruct (String.eqb f "book_snapshot"); [right; right; eauto|].
  destruct (String.eqb f "book"); [right; right; eauto|].
  left. case_bool_decide; [done|]. by destruct (Pub.inherited f).
Qed.

Lemma handleTickersEvent_frame d s :
  Pub.handleTickersEvent d s = s
  ∨ ∃ st, Pub.handleTickersEvent d s = Pub.set_store st s
          ∧ Pub.markets st = Pub.markets (Pub.store s)
          ∧ Pub.loaded_markets st = Pub.loaded_markets (Pub.store s).
Proof.
  unfold Pub.handleTickersEvent.
  destruct (list_find _ (Pub.markets _)) as [[i m]|]; [|by left].
  case_bool_decide; [by left|].
  destruct (list_find _ (Pub.tickers _)) as [[j t]|]; [|by left].
  right. eexists. split; [done|]. done.
Qed.

Lemma handle_frame data s :
  let s' := Js.final (Pub.handleOrderBookEvent data s) in
  Pub.orderBookCallbacks s' = Pub.orderBookCallbacks s
  ∧ (∀ q, q ≠ Pub.data_product_id data →
       Pub.orderBooks s' !! q = Pub.orderBooks s !! q)
  ∧ (is_Some (Pub.orderBookCallbacks s !! Pub.data_product_id data)
     ∨ Pub.orderBooks s' = Pub.orderBooks s)
  ∧ Pub.topics s' = Pub.topics s
  ∧ Pub.isDisposed s' = Pub.isDisposed s
  ∧ Pub.sockets s' = Pub.sockets s
  ∧ Pub.ws s' = Pub.ws s
  ∧ Pub.sent s' = Pub.sent s.
Proof.
  unfold Pub.handleOrderBookEvent.
  destruct (Pub.orderBookCallbacks s !! _) as [cb|];
    [|destruct (Pub.inherited _); by split_and!; auto].
  destruct (Pub.orderBooks s !! _) as [ob|];
    repeat case_bool_decide;
    destruct (Pub.data_bids data), (Pub.data_asks data);
    destruct s; simpl;
    (split_and!; try done; eauto; intros q Hq; by rewrite ?lookup_insert_ne).
Qed.

(** A disposed session without socket stays so, and sends, creates and
    invokes nothing, at every event. *)
Lemma disposed_step e s :
  Pub.isDisposed s = true → Pub.ws s = None →
  let s' := Js.final (Pub.step e s) in
  Pub.isDisposed s' = true ∧ Pub.ws s' = None
  ∧ Pub.sockets s' = Pub.sockets s ∧ Pub.sent s' = Pub.sent s
  ∧ Pub.invoked s' = Pub.invoked s.
Proof.
  intros Hd Hws.
  assert (Hlisten : ∀ sym cb s0,
            Pub.isDisposed s0 = true → Pub.ws s0 = None →
            let s' := Js.final (Pub.listenOrderBook sym cb s0) in
            Pub.isDisposed s' = true ∧ Pub.ws s' = None
            ∧ Pub.sockets s' = Pub.sockets s0 ∧ Pub.sent s' = Pub.sent s0
            ∧ Pub.invoked s' = Pub.invoked s0).
  { intros sym cb s0 Hd0 Hws0.
    destruct (listen_shapes sym cb s0)
      as [(t & -> & _)|[->|[->|[(p & bk & _ & _ & ->)
                                |(p & bk & cmds & _ & _ & Hcmds & ->)]]]];
      simpl; try (by destruct s0).
    rewrite Hcmds by (unfold Pub.isConnected; by rewrite Hws0).
    rewrite app_nil_r. by destruct s0. }
  destruct e as [| |json| |tid|ms|sym cb|u]; simpl.
  - unfold Pub.connectAndSubscribe. by rewrite Hd.
  - by rewrite Hws.
  - unfold Pub.onMessage. by rewrite Hd.
  - unfold Pub.onClose.
    replace (Pub.isDisposed (Pub.set_ws None s)) with true by (by destruct s).
    by destruct s.
  - unfold Pub.fireTimer.
    destruct (list_find _ (Pub.timers s)) as [[i t]|]; [|done].
    set (s1 := Pub.set_timers _ s).
    destruct (Hlisten (Pub.timer_symbol t) (Pub.timer_callback t) s1)
      as (H1 & H2 & H3 & H4 & H5); [by destruct s..|].
    unfold Js.bind. destruct (Pub.listenOrderBook _ _ s1); simpl in *;
      (split_and!; [done|done|by destruct s..]).
  - by destruct s.
  - destruct (Hlisten sym cb s Hd Hws) as (H1 & H2 & H3 & H4 & H5).
    unfold Js.bind. by destruct (Pub.listenOrderBook _ _ s).
  - unfold Pub.callUnsubscribe. destruct u as [tid| |p]; [by destruct s|done|].
    destruct (Pub.topics_get _ _) as [bk|]; [|done].
    set (s1 := Pub.set_orderBooks _ _).
    replace (Pub.isConnected s1) with false
      by (unfold Pub.isConnected; destruct s; simpl in *; by subst).
    by destruct s.
Qed.

(** X19: a disposed session without socket is inert: whatever calls and
    events follow, it creates no socket, sends no frame and invokes no
    callback. *)
Theorem disposed_session_is_inert es s :
  Pub.isDisposed s = true → Pub.ws s = None →
  let s' := Pub.run es s in
  Pub.sockets s' = Pub.sockets s
  ∧ Pub.sent s' = Pub.sent s
  ∧ Pub.invoked s' = Pub.invoked s
  ∧ Pub.ws s' = None.
Proof.
  revert s. induction es as [|e es IH]; intros s Hd Hws; simpl; [done|].
  destruct (disposed_step e s Hd Hws) as (Hd' & Hws' & Hso & Hse & Hin).
  destruct (IH _ Hd' Hws') as (-> & -> & -> & ->). done.
Qed.

Lemma disposed_session_is_inert_witness :
  let s := Pub.dispose (Pub.run [Pub.Listen "XBTUSD" 7] connected) in
  let s' :=
    Pub.run
      [ Pub.WsClose; Pub.Start; Pub.Listen "XBTUSD" 8;
        Pub.WsMessage
          (Some (snapshot "PF_XBTUSD"
                   [ {| Pub.level_price := 100; Pub.level_qty := 2 |} ] []));
        Pub.Unsub (Pub.Release "PF_XBTUSD") ] s in
  Pub.sockets s' = Pub.sockets s
  ∧ Pub.sent s' = Pub.sent s
  ∧ Pub.invoked s' = Pub.invoked s
  ∧ Pub.ws s' = None.
Proof.
  apply (disposed_session_is_inert
           [ Pub.WsClose; Pub.Start; Pub.Listen "XBTUSD" 8;
             Pub.WsMessage
               (Some (snapshot "PF_XBTUSD"
                        [ {| Pub.level_price := 100; Pub.level_qty := 2 |} ] []));
             Pub.Unsub (Pub.Release "PF_XBTUSD") ]
           (Pub.dispose (Pub.run [Pub.Listen "XBTUSD" 7] connected)));
    reflexivity.
Defined.

Lemma connectAndSubscribe_frame s :
  let s' := Pub.connectAndSubscribe s in
  Pub.orderBookCallbacks s' = Pub.orderBookCallbacks s
  ∧ Pub.orderBooks s' = Pub.orderBooks s
  ∧ (Pub.topics s' = Pub.topics s
     ∨ Pub.topics_get "book" (Pub.topics s') = Some []).
Proof.
  unfold Pub.connectAndSubscribe. destruct (Pub.isDisposed s); simpl; [auto|].
  split_and!; [by destruct s..|right; by destruct s].
Qed.

Lemma onOpen_frame s :
  let s' := Pub.onOpen s in
  Pub.orderBookCallbacks s' = Pub.orderBookCallbacks s
  ∧ Pub.orderBooks s' = Pub.orderBooks s
  ∧ Pub.topics s' = Pub.topics s.
Proof.
  unfold Pub.onOpen. destruct (Pub.isDisposed s); simpl; [done|].
  rewrite subscribe_sent. destruct (Pub.ws s); by destruct s.
Qed.

Lemma books_have_listeners_frame s s' :
  Pub.orderBookCallbacks s' = Pub.orderBookCallbacks s →
  Pub.orderBooks s' = Pub.orderBooks s →
  books_have_listeners s → books_have_listeners s'.
Proof. unfold books_have_listeners. by intros -> ->. Qed.

Lemma books_have_listeners_listen sym cb s :
  books_have_listeners s →
  books_have_listeners (Js.final (Pub.listenOrderBook sym cb s)).
Proof.
  intros Hinv.
  assert (Hins : ∀ s1 p,
            Pub.orderBooks s1 = Pub.orderBooks s →
            Pub.orderBookCallbacks s1
            = <[p := cb]> (Pub.orderBookCallbacks s) →
            books_have_listeners s1).
  { intros s1 p Hb Hc q Hq. rewrite Hc. rewrite Hb in Hq.
    destruct (decide (p = q)) as [->|Hne].
    - rewrite lookup_insert_eq. eauto.
    - rewrite lookup_insert_ne by done. by apply Hinv. }
  destruct (listen_shapes sym cb s)
    as [(t & -> & _)|[->|[->|[(p & bk & _ & _ & ->)
                              |(p & bk & cmds & _ & _ & _ & ->)]]]];
    simpl; try done.
  - revert Hinv. apply books_have_listeners_frame; by destruct s.
  - apply (Hins _ p); by destruct s.
  - apply (Hins _ p); by destruct s.
Qed.

Lemma books_have_listeners_step e s :
  books_have_listeners s → books_have_listeners (Js.final (Pub.step e s)).
Proof.
  intros Hinv. destruct e as [| |json| |tid|ms|sym cb|u]; simpl.
  - destruct (connectAndSubscribe_frame s) as (Hc & Hb & _).
    revert Hinv. by apply books_have_listeners_frame.
  - destruct (Pub.ws s); [|done]. simpl.
    destruct (onOpen_frame (Pub.set_ws (Some Pub.OPEN) s)) as (Hc & Hb & _).
    revert Hinv. apply books_have_listeners_frame;
      [rewrite Hc|rewrite Hb]; by destruct s.
  - destruct (onMessage_shapes json s) as [->|[(d & ->)|(d & _ & ->)]]; [done| |].
    + simpl. destruct (handleTickersEvent_frame d s) as [->|(st & -> & _)];
        [done|].
      revert Hinv. apply books_have_listeners_frame; by destruct s.
    + destruct (handle_frame d s) as (Hc & Hother & Hown & _).
      intros q Hq. rewrite Hc.
      destruct (decide (q = Pub.data_product_id d)) as [->|Hne].
      * destruct Hown as [Hsome|Hsame]; [done|].
        rewrite Hsame in Hq. by apply Hinv.
      * rewrite Hother in Hq by done. by apply Hinv.
  - unfold Pub.onClose.
    destruct (Pub.isDisposed (Pub.set_ws None s)).
    + revert Hinv. apply books_have_listeners_frame; by destruct s.
    + destruct (connectAndSubscribe_frame (Pub.set_ws None s)) as (Hc & Hb & _).
      revert Hinv. apply books_have_listeners_frame;
        [rewrite Hc|rewrite Hb]; by destruct s.
  - unfold Pub.fireTimer.
    destruct (list_find _ (Pub.timers s)) as [[i t]|]; [|done].
    set (s1 := Pub.set_timers _ s).
    assert (H1 : books_have_listeners s1)
      by (revert Hinv; apply books_have_listeners_frame; by destruct s).
    apply (books_have_listeners_listen (Pub.timer_symbol t)
             (Pub.timer_callback t)) in H1.
    unfold Js.bind. by destruct (Pub.listenOrderBook _ _ s1).
  - revert Hinv. apply books_have_listeners_frame; by destruct s.
  - apply (books_have_listeners_listen sym cb) in Hinv.
    unfold Js.bind. by destruct (Pub.listenOrderBook _ _ s).
  - unfold Pub.callUnsubscribe. destruct u as [tid| |p]; [|done|].
    + simpl. revert Hinv. apply books_have_listeners_frame; by destruct s.
    + destruct (Pub.topics_get _ _) as [bk|]; [|done].
      set (s1 := Pub.set_orderBooks _ _).
      assert (H1 : Pub.orderBookCallbacks s1 = delete p (Pub.orderBookCallbacks s)
                   ∧ Pub.orderBooks s1 = delete p (Pub.orderBooks s))
        by (by destruct s).
      destruct H1 as [Hc Hb].
      assert (Hinv1 : books_have_listeners s1).
      { intros q Hq. rewrite Hc. rewrite Hb in Hq.
        destruct (decide (p = q)) as [->|Hne].
        - rewrite lookup_delete_eq in Hq. by destruct Hq.
        - rewrite lookup_delete_ne in Hq by done.
          rewrite lookup_delete_ne by done. by apply Hinv. }
      destruct (Pub.isConnected s1); simpl; [|done].
      revert Hinv1. apply books_have_listeners_frame;
        unfold Pub.send; destruct (Pub.ws s1); by destruct s1.
Qed.

(** X20: in every state that a public session reaches from its
    construction by calls and events that name no property of
    [Object.prototype], [orderBooks] has an entry only for a product that
    has an entry in [orderBookCallbacks]: no book is created or left
    behind for a product nobody listens to. *)
Theorem books_only_for_listened_products st es :
  Forall ordinary es →
  books_have_listeners (Pub.run es (Pub.initial st)).
Proof.
  intros _.
  assert (Hgen : ∀ s, books_have_listeners s →
            books_have_listeners (Pub.run es s)).
  { induction es as [|e es IH]; intros s Hs; [done|].
    simpl. apply IH. by apply books_have_listeners_step. }
  apply Hgen. intros p [ob Hob]. simpl in Hob. by rewrite lookup_empty in Hob.
Qed.

Lemma books_only_for_listened_products_witness :
  books_have_listeners
    (Pub.run
       [ Pub.Start; Pub.WsOpen; Pub.Listen "XBTUSD" 7;
         Pub.WsMessage
           (Some (snapshot "PF_XBTUSD"
                    [ {| Pub.level_price := 100; Pub.level_qty := 2 |} ] []));
         Pub.WsMessage
           (Some (snapshot "PF_ETHUSD"
                    [ {| Pub.level_price := 100; Pub.level_qty := 2 |} ] []));
         Pub.Unsub (Pub.Release "PF_XBTUSD") ]
       (Pub.initial loaded_store)).
Proof.
  apply (books_only_for_listened_products loaded_store
           [ Pub.Start; Pub.WsOpen; Pub.Listen "XBTUSD" 7;
             Pub.WsMessage
               (Some (snapshot "PF_XBTUSD"
                        [ {| Pub.level_price := 100; Pub.level_qty := 2 |} ]
                        []));
             Pub.WsMessage
               (Some (snapshot "PF_ETHUSD"
                        [ {| Pub.level_price := 100; Pub.level_qty := 2 |} ]
                        []));
             Pub.Unsub (Pub.Release "PF_XBTUSD") ]).
  repeat (apply Forall_cons; split; [try exact I|]); [| |constructor].
  - simpl. split; [|intros f [= <-]]; unfold plain;
      apply (bool_decide_unpack _); vm_compute; exact I.
  - simpl. split; [|intros f [= <-]]; unfold plain;
      apply (bool_decide_unpack _); vm_compute; exact I.
Defined.

Lemma NoDup_fmap_filter {A B} (f : A → B) (P : A → Prop)
    `{∀ x, Decision (P x)} (l : list A) :
  NoDup (f <$> l) → NoDup (f <$> filter P l).
Proof.
  induction l as [|x l IH]; [done|].
  rewrite fmap_cons. intros [Hx Hl]%NoDup_cons.
  destruct (decide (P x)).
  - rewrite filter_cons_True, fmap_cons by done. apply NoDup_cons.
    split; [|auto]. intros (y & Hy & Hin)%list_elem_of_fmap.
    apply list_elem_of_filter in Hin as [_ Hin].
    apply Hx. rewrite Hy. apply list_elem_of_fmap. eauto.
  - rewrite filter_cons_False by done. auto.
Qed.

Lemma book_topics_unique_frame s s' :
  Pub.topics s' = Pub.topics s →
  book_topics_unique s → book_topics_unique s'.
Proof. unfold book_topics_unique. by intros ->. Qed.

Lemma book_topics_unique_set s s' bk :
  Pub.topics s' = Pub.topics_set "book" bk (Pub.topics s) →
  NoDup (Pub.product_id <$> bk) →
  book_topics_unique s'.
Proof.
  intros Ht Hnd bk' Hbk'. rewrite Ht, topics_get_set in Hbk'.
  by injection Hbk' as <-.
Qed.

Lemma book_topics_unique_listen sym cb s :
  book_topics_unique s →
  book_topics_unique (Js.final (Pub.listenOrderBook sym cb s)).
Proof.
  intros Hinv.
  destruct (listen_shapes sym cb s)
    as [(t & -> & _)|[->|[->|[(p & bk & _ & _ & ->)
                              |(p & bk & cmds & Hbk & Hp & _ & ->)]]]];
    simpl; try done.
  - revert Hinv. apply book_topics_unique_frame; by destruct s.
  - revert Hinv. apply book_topics_unique_frame; by destruct s.
  - apply (book_topics_unique_set s _ (bk ++ [book_topic p])); [by destruct s|].
    rewrite fmap_app. apply NoDup_app. split_and!.
    + by apply Hinv.
    + intros x Hx Hin. apply list_elem_of_singleton in Hin. by subst x.
    + apply NoDup_singleton.
Qed.

Lemma book_topics_unique_connect s :
  book_topics_unique s → book_topics_unique (Pub.connectAndSubscribe s).
Proof.
  intros Hinv. destruct (connectAndSubscribe_frame s) as (_ & _ & [Ht|Ht]).
  - revert Hinv. by apply book_topics_unique_frame.
  - intros bk Hbk. rewrite Ht in Hbk. injection Hbk as <-. constructor.
Qed.

Lemma book_topics_unique_step e s :
  book_topics_unique s → book_topics_unique (Js.final (Pub.step e s)).
Proof.
  intros Hinv. destruct e as [| |json| |tid|ms|sym cb|u]; simpl.
  - by apply book_topics_unique_connect.
  - destruct (Pub.ws s); [|done]. simpl.
    destruct (onOpen_frame (Pub.set_ws (Some Pub.OPEN) s)) as (_ & _ & Ht).
    revert Hinv. apply book_topics_unique_frame. rewrite Ht. by destruct s.
  - destruct (onMessage_shapes json s) as [->|[(d & ->)|(d & _ & ->)]]; [done| |].
    + simpl. destruct (handleTickersEvent_frame d s) as [->|(st & -> & _)];
        [done|].
      revert Hinv. apply book_topics_unique_frame; by destruct s.
    + destruct (handle_frame d s) as (_ & _ & _ & Ht & _).
      revert Hinv. by apply book_topics_unique_frame.
  - unfold Pub.onClose.
    assert (H1 : book_topics_unique (Pub.set_ws None s))
      by (revert Hinv; apply book_topics_unique_frame; by destruct s).
    destruct (Pub.isDisposed (Pub.set_ws None s)); [done|].
    by apply book_topics_unique_connect.
  - unfold Pub.fireTimer.
    destruct (list_find _ (Pub.timers s)) as [[i t]|]; [|done].
    set (s1 := Pub.set_timers _ s).
    assert (H1 : book_topics_unique s1)
      by (revert Hinv; apply book_topics_unique_frame; by destruct s).
    apply (book_topics_unique_listen (Pub.timer_symbol t)
             (Pub.timer_callback t)) in H1.
    unfold Js.bind. by destruct (Pub.listenOrderBook _ _ s1).
  - revert Hinv. apply book_topics_unique_frame; by destruct s.
  - apply (book_topics_unique_listen sym cb) in Hinv.
    unfold Js.bind. by destruct (Pub.listenOrderBook _ _ s).
  - unfold Pub.callUnsubscribe. destruct u as [tid| |p]; [|done|].
    + simpl. revert Hinv. apply book_topics_unique_frame; by destruct s.
    + destruct (Pub.topics_get _ _) as [bk|] eqn:Hbk; [|done].
      set (s1 := Pub.set_orderBooks _ _).
      assert (Hinv1 : book_topics_unique s1).
      { apply (book_topics_unique_set s _
                 (filter (λ t, Pub.product_id t ≠ p) bk)); [by destruct s|].
        apply NoDup_fmap_filter. by apply Hinv. }
      destruct (Pub.isConnected s1); simpl; [|done].
      revert Hinv1. apply book_topics_unique_frame.
      unfold Pub.send. destruct (Pub.ws s1); by destruct s1.
Qed.

(** X21: in every state that a public session reaches from its
    construction, no product has two book topics, so no subscribe command
    of the book feed names a product twice. *)
Theorem book_topics_stay_unique st es :
  book_topics_unique (Pub.run es (Pub.initial st)).
Proof.
  assert (Hgen : ∀ s, book_topics_unique s →
            book_topics_unique (Pub.run es s)).
  { induction es as [|e es IH]; intros s Hs; [done|].
    simpl. apply IH. by apply book_topics_unique_step. }
  apply Hgen. intros bk Hbk. discriminate.
Qed.

(** ** handleTickersEvent *)

Lemma ticker_fold_lookup (src : gmap string Z) kl :
  NoDup kl.*2 →
  ∀ (u : gmap string Z) to,
    let r :=
      foldl (λ u '(from, to),
               match src !! from with
               | Some v => <[to := v]> u
               | None => u
               end) u kl in
    (to ∉ kl.*2 → r !! to = u !! to)
    ∧ ∀ from, (from, to) ∈ kl →
        r !! to = match src !! from with Some v => Some v | None => u !! to end.
Proof.
  induction kl as [|[a b] kl IH]; intros Hnd u to; simpl.
  - split; [done|]. intros from Hin. by apply elem_of_nil in Hin.
  - simpl in Hnd. apply NoDup_cons in Hnd as [Hb Hnd].
    set (u' := match src !! a with Some v => <[b := v]> u | None => u end).
    destruct (IH Hnd u' to) as [Hout Hin]. split.
    + intros Hto. apply not_elem_of_cons in Hto as [Hne Hto].
      rewrite (Hout Hto). unfold u'. destruct (src !! a); [|done].
      by rewrite lookup_insert_ne.
    + intros from [[= -> ->]|Hmem]%elem_of_cons.
      * rewrite (Hout Hb). unfold u'. destruct (src !! a); [|done].
        by rewrite lookup_insert_eq.
      * rewrite (Hin from Hmem).
        assert (Hne : b ≠ to).
        { intros ->. apply Hb. apply list_elem_of_fmap. by exists (from, to). }
        unfold u'. destruct (src !! from); [done|].
        destruct (src !! a); [|done]. by rewrite lookup_insert_ne.
Qed.

(** X22: the update that a ticker message produces follows the table of
    lines 93-102: each property of the message sets the ticker property
    paired with it ([markPrice] sets [mark], [change] sets [percentage],
    [funding_rate] sets [fundingRate], [volumeQuote] sets [quoteVolume],
    the others their namesake), and a property that the message lacks is
    left out of the update. *)
Theorem ticker_update_follows_the_table data from to :
  (from, to) ∈ Pub.ticker_keys →
  Pub.ticker_update data !! to = Pub.data_ticker data !! from.
Proof.
  intros Hin. unfold Pub.ticker_update.
  assert (Hnd : NoDup Pub.ticker_keys.*2) by compute_done.
  destruct (ticker_fold_lookup (Pub.data_ticker data) Pub.ticker_keys Hnd ∅ to)
    as [_ H]. rewrite (H from Hin).
  destruct (Pub.data_ticker data !! from); [done|apply lookup_empty].
Qed.

Lemma ticker_update_follows_the_table_witness :
  Pub.ticker_update ticker_message !! "mark"
  = Pub.data_ticker ticker_message !! "markPrice".
Proof.
  apply (ticker_update_follows_the_table ticker_message "markPrice" "mark").
  unfold Pub.ticker_keys. rewrite !elem_of_cons. auto 10.
Defined.

(** X23: a ticker message changes nothing but the tickers of the store: the
    markets, the books, the callbacks, the topics and the frames sent stay;
    and a message for a product id that no market has changes nothing at
    all. *)
Theorem ticker_event_changes_tickers_only data s :
  let s' := Pub.handleTickersEvent data s in
  Pub.markets (Pub.store s') = Pub.markets (Pub.store s)
  ∧ Pub.loaded_markets (Pub.store s') = Pub.loaded_markets (Pub.store s)
  ∧ Pub.orderBooks s' = Pub.orderBooks s
  ∧ Pub.orderBookCallbacks s' = Pub.orderBookCallbacks s
  ∧ Pub.topics s' = Pub.topics s
  ∧ Pub.sent s' = Pub.sent s
  ∧ Pub.invoked s' = Pub.invoked s
  ∧ (Pub.data_product_id data ∉ Pub.market_id <$> Pub.markets (Pub.store s) →
     s' = s).
Proof.
  simpl. split_and!;
    try (destruct (handleTickersEvent_frame data s) as [->|(st & -> & Hm & Hl)];
         by destruct s).
  intros Hid. unfold Pub.handleTickersEvent.
  destruct (list_find _ (Pub.markets _)) as [[i m]|] eqn:Hfind; [|done].
  apply list_find_Some in Hfind as (Hi & Hm & _). exfalso. apply Hid.
  rewrite <- Hm. apply list_elem_of_fmap. exists m. split; [done|].
  by eapply list_elem_of_lookup_2.
Qed.

(** ** The private session *)

Section PrivateSession.
Context `{Platform}.
Variables (key secret : string).

Lemma priv_send_keeps f s :
  Priv.timers (Priv.send f s) = Priv.timers s
  ∧ Priv.pingTimeoutId (Priv.send f s) = Priv.pingTimeoutId s
  ∧ Priv.isDisposed (Priv.send f s) = Priv.isDisposed s
  ∧ Priv.sockets (Priv.send f s) = Priv.sockets s
  ∧ Priv.ws (Priv.send f s) = Priv.ws s
  ∧ Priv.signedChallenge (Priv.send f s) = Priv.signedChallenge s
  ∧ Priv.challenge (Priv.send f s) = Priv.challenge s
  ∧ Priv.sent (Priv.send f s)
    = Priv.sent s ++ (match Priv.ws s with Some _ => [f] | None => [] end).
Proof.
  unfold Priv.send. destruct s as [a [w|] c d e g h i j snt k l]; simpl;
    split_and!; try done. by rewrite app_nil_r.
Qed.

Lemma priv_ping_keeps now s :
  Priv.timers (Priv.ping now s) = Priv.timers s
  ∧ Priv.pingTimeoutId (Priv.ping now s) = Priv.pingTimeoutId s
  ∧ Priv.isDisposed (Priv.ping now s) = Priv.isDisposed s
  ∧ Priv.sockets (Priv.ping now s) = Priv.sockets s.
Proof.
  unfold Priv.ping. destruct (Priv.isDisposed s) eqn:Hd; [done|].
  destruct (priv_send_keeps Priv.Ping (Priv.set_pingAt now s))
    as (-> & -> & -> & -> & _).
  by destruct s.
Qed.

Lemma priv_subscribe_request_keeps s :
  let s' := Priv.sendSubscribeRequest key s in
  Priv.timers s' = Priv.timers s
  ∧ Priv.pingTimeoutId s' = Priv.pingTimeoutId s
  ∧ Priv.isDisposed s' = Priv.isDisposed s
  ∧ Priv.sockets s' = Priv.sockets s.
Proof.
  simpl. unfold Priv.sendSubscribeRequest.
  destruct (Priv.challenge s) as [c|]; [|done].
  case_bool_decide as Hc; [|done]. clear Hc.
  generalize ["open_orders"; "open_positions"; "balances"]. intros feeds.
  revert s. induction feeds as [|feed feeds IH]; intros s; simpl; [done|].
  destruct (IH (Priv.send (Priv.Subscribe feed key c (Priv.signedChallenge s)) s))
    as (-> & -> & -> & ->).
  by destruct (priv_send_keeps
                 (Priv.Subscribe feed key c (Priv.signedChallenge s)) s)
    as (-> & -> & -> & -> & _).
Qed.

Lemma one_ping_timer_frame s s' :
  Priv.timers s' = Priv.timers s →
  Priv.pingTimeoutId s' = Priv.pingTimeoutId s →
  one_ping_timer s → one_ping_timer s'.
Proof. unfold one_ping_timer. by intros -> ->. Qed.

Lemma one_ping_timer_pong now s :
  one_ping_timer s → one_ping_timer (Priv.handlePongEvent now s).
Proof.
  intros Hinv. unfold Priv.handlePongEvent, one_ping_timer.
  destruct s as [a w c d e g h tm n snt k l]; simpl in *.
  destruct Hinv as [Hnil|(id & Hone & Hid)]; simpl in *; subst.
  - destruct d; simpl; right; eexists; split; reflexivity.
  - simpl. rewrite filter_cons_False by (intros Hne; by apply Hne).
    right; eexists; split; reflexivity.
Qed.

Lemma one_ping_timer_step e s :
  one_ping_timer s → one_ping_timer (Js.final (Priv.step key secret e s)).
Proof.
  intros Hinv. destruct e as [|now|now parsed| |now tid]; simpl.
  - unfold Priv.connectAndSubscribe. destruct (Priv.isDisposed s); [done|].
    revert Hinv. apply one_ping_timer_frame; by destruct s.
  - destruct (Priv.ws s); [|done]. simpl. unfold Priv.onOpen.
    destruct (Priv.isDisposed _).
    + revert Hinv. apply one_ping_timer_frame; by destruct s.
    + unfold Priv.requestChallenge.
      destruct (priv_ping_keeps now
                  (Priv.send (Priv.Challenge key) (Priv.set_ws (Some Priv.OPEN) s)))
        as (Ht & Hp & _).
      destruct (priv_send_keeps (Priv.Challenge key)
                  (Priv.set_ws (Some Priv.OPEN) s)) as (Ht' & Hp' & _).
      revert Hinv. apply one_ping_timer_frame;
        [rewrite Ht, Ht'|rewrite Hp, Hp']; by destruct s.
  - unfold Priv.onMessage.
    destruct (Priv.is_pong parsed); [by apply one_ping_timer_pong|].
    destruct (Priv.is_event parsed "challenge").
    { destruct (parsed ≫= Priv.parsed_message) as [c|]; simpl.
      - destruct (priv_subscribe_request_keeps
                    (Priv.set_signedChallenge (Priv.signChallenge secret c)
                       (Priv.set_challenge (Some c) s)))
          as (Ht & Hp & _).
        revert Hinv. apply one_ping_timer_frame;
          [rewrite Ht|rewrite Hp]; by destruct s.
      - revert Hinv. apply one_ping_timer_frame; by destruct s. }
    destruct (Priv.is_event parsed "subscribed").
    { simpl. case_bool_decide; [done|].
      revert Hinv. apply one_ping_timer_frame; by destruct s. }
    repeat (match goal with
            | |- context [if ?b then _ else _] => destruct b
            end;
            [revert Hinv; apply one_ping_timer_frame; by destruct s|]).
    done.
  - unfold Priv.onClose. destruct (Priv.isDisposed (Priv.set_ws None s)).
    + revert Hinv. apply one_ping_timer_frame; by destruct s.
    + unfold Priv.connectAndSubscribe.
      destruct (Priv.isDisposed (Priv.set_ws None s));
        revert Hinv; apply one_ping_timer_frame; by destruct s.
  - unfold Priv.fireTimer. case_bool_decide as Hin; [|done]. left.
    destruct (priv_ping_keeps now
                (Priv.set_timers (filter (λ t, t ≠ tid) (Priv.timers s)) s))
      as (-> & _).
    destruct Hinv as [Hnil|(id & Hone & _)].
    + rewrite Hnil in Hin. by apply elem_of_nil in Hin.
    + rewrite Hone in Hin. apply list_elem_of_singleton in Hin. subst id.
      destruct s; simpl in *. subst.
      by rewrite filter_cons_False by (intros Hne; by apply Hne).
Qed.

(** X24: in every state that a private session reaches from its
    construction at most one ping timer is pending, and it is the timer
    whose id [pingTimeoutId] holds: a pong clears the timer of the pong
    before and schedules one. *)
Theorem at_most_one_ping_timer es :
  one_ping_timer (Priv.run key secret es Priv.initial).
Proof.
  assert (Hgen : ∀ s, one_ping_timer s →
            one_ping_timer (Priv.run key secret es s)).
  { induction es as [|e es IH]; intros s Hs; [done|].
    simpl. apply IH. by apply one_ping_timer_step. }
  apply Hgen. by left.
Qed.


(** X26: on a session that is not disposed, the [open] event of its socket
    sends the challenge request with the API key and then a ping, and
    records the time of the ping; no timer is created. *)
Theorem open_requests_challenge_and_pings now s r :
  Priv.isDisposed s = false →
  Priv.ws s = Some r →
  let s' := Js.final (Priv.step key secret (Priv.WsOpen now) s) in
  Priv.sent s' = Priv.sent s ++ [Priv.Challenge key; Priv.Ping]
  ∧ Priv.pingAt s' = now
  ∧ Priv.ws s' = Some Priv.OPEN
  ∧ Priv.timers s' = Priv.timers s
  ∧ Priv.sockets s' = Priv.sockets s.
Proof.
  intros Hd Hws. simpl. rewrite Hws. simpl.
  unfold Priv.onOpen, Priv.ping, Priv.requestChallenge, Priv.send.
  destruct s as [a w x d e g h tm n snt k l]; simpl in *. subst. simpl.
  split_and!; try done. by rewrite <- app_assoc.
Qed.

Lemma disposed_private_step e s :
  Priv.isDisposed s = true →
  let s' := Js.final (Priv.step key secret e s) in
  Priv.isDisposed s' = true
  ∧ Priv.sockets s' = Priv.sockets s
  ∧ pings (Priv.sent s') = pings (Priv.sent s).
Proof.
  intros Hd. destruct e as [|now|now parsed| |now tid]; simpl.
  - unfold Priv.connectAndSubscribe. by rewrite Hd.
  - destruct (Priv.ws s); [|done]. simpl. unfold Priv.onOpen.
    replace (Priv.isDisposed (Priv.set_ws (Some Priv.OPEN) s)) with true
      by (by destruct s).
    by destruct s.
  - unfold Priv.onMessage.
    destruct (Priv.is_pong parsed).
    { simpl. unfold Priv.handlePongEvent.
      destruct s as [a w x d e g h tm n snt k l]; simpl in *.
      by destruct d. }
    destruct (Priv.is_event parsed "challenge").
    { destruct (parsed ≫= Priv.parsed_message) as [c|]; simpl.
      - set (s1 := Priv.set_signedChallenge _ _).
        destruct (priv_subscribe_request_keeps s1) as (_ & _ & -> & ->).
        destruct (sendSubscribeRequest_frame key s1) as (_ & _ & _ & ->).
        by destruct s.
      - by destruct s. }
    destruct (Priv.is_event parsed "subscribed").
    { simpl. case_bool_decide; by destruct s. }
    repeat (match goal with
            | |- context [if ?b then _ else _] => destruct b
            end; [by destruct s|]).
    done.
  - unfold Priv.onClose.
    replace (Priv.isDisposed (Priv.set_ws None s)) with true by (by destruct s).
    by destruct s.
  - unfold Priv.fireTimer. case_bool_decide; [|done].
    unfold Priv.ping.
    replace (Priv.isDisposed (Priv.set_timers _ s)) with true
      by (by destruct s).
    by destruct s.
Qed.

(** X27: a disposed private session creates no socket and sends no ping,
    whatever events follow: a transport close does not reconnect and a
    ping timer that fires sends nothing. *)
Theorem disposed_private_session_stops es s :
  Priv.isDisposed s = true →
  let s' := Priv.run key secret es s in
  Priv.sockets s' = Priv.sockets s
  ∧ pings (Priv.sent s') = pings (Priv.sent s).
Proof.
  revert s. induction es as [|e es IH]; intros s Hd; simpl; [done|].
  destruct (disposed_private_step e s Hd) as (Hd' & Hso & Hp).
  destruct (IH _ Hd') as (-> & ->). done.
Qed.

End PrivateSession.


Lemma open_requests_challenge_and_pings_witness :
  let s := @Priv.run example_platform "key" "c2VjcmV0" [Priv.Start] Priv.initial in
  let s' :=
    Js.final (@Priv.step example_platform "key" "c2VjcmV0" (Priv.WsOpen 42) s) in
  Priv.sent s' = Priv.sent s ++ [Priv.Challenge "key"; Priv.Ping]
  ∧ Priv.pingAt s' = 42%Z
  ∧ Priv.ws s' = Some Priv.OPEN
  ∧ Priv.timers s' = Priv.timers s
  ∧ Priv.sockets s' = Priv.sockets s.
Proof.
  apply (@open_requests_challenge_and_pings example_platform "key" "c2VjcmV0"
           42%Z _ Priv.CONNECTING);
    reflexivity.
Defined.

Lemma disposed_private_session_stops_witness :
  let s :=
    Priv.set_isDisposed true
      (@Priv.run example_platform "key" "c2VjcmV0"
         [Priv.Start; Priv.WsOpen 0; Priv.WsMessage 8 (Some pong_message)]
         Priv.initial) in
  let s' :=
    @Priv.run example_platform "key" "c2VjcmV0"
      [Priv.TimerFires 10008 0; Priv.WsClose; Priv.Start] s in
  Priv.sockets s' = Priv.sockets s
  ∧ pings (Priv.sent s') = pings (Priv.sent s).
Proof.
  apply (@disposed_private_session_stops example_platform "key" "c2VjcmV0").
  reflexivity.
Defined.
